(** * loudframe device manager: scanner, registry merge, batch dispatch

    A shallow embedding of the discovery-and-reconciliation code of
    [play_sdcard_multi/device-manager] (device_scanner.py,
    batch_controller.py, id_manager.py), and the properties the
    specification states about it.

    Python dictionaries are finite maps ([gmap]); a device record is a
    dictionary from field names to JSON values.  The network, the clock
    and the file system are inputs: every function takes the outcome of
    the HTTP exchange or of the file read it performs.  Exceptions are
    values of the type [exn]. *)

From stdpp Require Import gmap strings list fin_maps pretty.
From Stdlib Require Import ZArith Lia.

Local Open Scope Z_scope.

(** ** Python values *)

(** What [json.load] and [response.json()] return.  Numbers are integers
    (fractional JSON numbers are outside this model); [None] is [JNull]. *)
#[warnings="-register-all"]
Inductive json : Type :=
  | JNull
  | JBool (b : bool)
  | JNum (n : Z)
  | JStr (s : string)
  | JArr (l : list json)
  | JObj (m : gmap string json).

(** [Dict[str, Any]] *)
Abbreviation record := (gmap string json).

(** The exceptions the code distinguishes, by the handler that catches
    them: [asyncio.TimeoutError], [aiohttp.ClientError] (with its
    subclasses), and everything else that is an [Exception]. *)
Inductive exn : Type :=
  | TimeoutError
  | ClientError (msg : string)
  | KeyError (key : string)
  | TypeError (msg : string)
  | ValueError (msg : string)
  | AttributeError (msg : string)
  | OSError (msg : string).

(** [str(e)] *)
Definition exn_str (e : exn) : string :=
  match e with
  | TimeoutError => EmptyString
  | KeyError key => "'" +:+ key +:+ "'"
  | ClientError msg | TypeError msg | ValueError msg
  | AttributeError msg | OSError msg => msg
  end.

(** A computation that returns or raises. *)
Abbreviation result A := (exn + A)%type.
Abbreviation Return := inr (only parsing).
Abbreviation Raise := inl (only parsing).

#[global] Instance result_bind : MBind (sum exn) :=
  λ A B k c, match c with
             | inl e => inl e
             | inr a => k a
             end.

(** [d.get(k, default)] *)
Definition dict_get (d : record) (k : string) (dflt : json) : json :=
  default dflt (d !! k).

(** [v.get(k, default)] on an arbitrary value: only a dict has [get]. *)
Definition py_get (v : json) (k : string) (dflt : json) : result json :=
  match v with
  | JObj d => Return (dict_get d k dflt)
  | _ => Raise (AttributeError "object has no attribute 'get'")
  end.

(** [v[k]] with a string subscript. *)
Definition py_getitem (v : json) (k : string) : result json :=
  match v with
  | JObj d => match d !! k with
              | Some x => Return x
              | None => Raise (KeyError k)
              end
  | JArr _ => Raise (TypeError "list indices must be integers or slices, not str")
  | JStr _ => Raise (TypeError "string indices must be integers, not 'str'")
  | _ => Raise (TypeError "object is not subscriptable")
  end.

(** Dictionary keys.  A hashable JSON value used as a key: [True] and [1]
    are the same key, as are [False] and [0]; lists and dicts are
    unhashable. *)
Inductive pykey : Type :=
  | KNone
  | KNum (n : Z)
  | KStr (s : string).

#[global] Instance pykey_eq_dec : EqDecision pykey.
Proof. solve_decision. Defined.

#[global] Instance pykey_countable : Countable pykey.
Proof.
  refine (inj_countable'
    (λ k, match k with
          | KNone => inl ()
          | KNum n => inr (inl n)
          | KStr s => inr (inr s)
          end)
    (λ x, match x with
          | inl () => KNone
          | inr (inl n) => KNum n
          | inr (inr s) => KStr s
          end) _).
  by intros [].
Defined.

#[global] Instance KStr_inj : Inj (=) (=) KStr.
Proof. by intros ?? [= ->]. Qed.

(** The key under which [d[v] = ...] stores, or the [TypeError] of an
    unhashable [v]. *)
Definition key_of (v : json) : result pykey :=
  match v with
  | JNull => Return KNone
  | JBool b => Return (KNum (Z.b2z b))
  | JNum n => Return (KNum n)
  | JStr s => Return (KStr s)
  | JArr _ => Raise (TypeError "unhashable type: 'list'")
  | JObj _ => Raise (TypeError "unhashable type: 'dict'")
  end.

(** [f"{v:<20}"]: a format specification with a width is accepted by
    strings and numbers; [None], lists and dicts reject it. *)
Definition py_format_spec (v : json) : result unit :=
  match v with
  | JNull | JArr _ | JObj _ =>
      Raise (TypeError "unsupported format string passed to __format__")
  | _ => Return ()
  end.

(** [range(start, stop, step)]: the list of its elements, or the
    [ValueError] of a zero step. *)
Definition py_range (start stop step : Z) : result (list Z) :=
  if decide (step = 0) then Raise (ValueError "range() arg 3 must not be zero")
  else
    let count :=
      if decide (0 < step) then (stop - start + step - 1) / step
      else (start - stop - step - 1) / (- step) in
    Return ((λ k : nat, start + Z.of_nat k * step) <$> seq 0 (Z.to_nat count)).

(** [l[i:j]] for [0 <= i <= j]. *)
Definition py_slice {A} (l : list A) (i j : Z) : list A :=
  take (Z.to_nat (j - i)) (drop (Z.to_nat i) l).

(** ** HTTP exchanges *)

(** What one request of an [aiohttp] session comes to: the request raises,
    or a response arrives with a status and a body; [body] is what
    [await response.json()] evaluates to, which raises when the body is
    not JSON. *)
Inductive http_outcome : Type :=
  | Raised (e : exn)
  | Response (status : Z) (body : result json).

(** ** Python's [ipaddress] module, IPv4 networks

    [ipaddress.ip_network(s, strict=False)] as CPython implements it:
    the host bits of the address are masked off, and [hosts] is
    overridden for the prefix lengths 31 and 32. *)
Module ipaddress.

Definition IPV4LENGTH : Z := 32.
Definition ALL_ONES : Z := 2 ^ IPV4LENGTH - 1.

(** [addr] and [prefixlen] are the two parts of the argument, already
    parsed: [0 <= addr <= ALL_ONES] and [0 <= prefixlen <= 32]. *)
Record IPv4Network : Type := {
  addr : Z;
  prefixlen : Z
}.

Definition ip_int_from_prefix (prefixlen : Z) : Z :=
  Z.lxor ALL_ONES (Z.shiftr ALL_ONES prefixlen).

Definition netmask (n : IPv4Network) : Z :=
  ip_int_from_prefix (prefixlen n).

(** [packed & int(self.netmask)]; when no host bit is set this is
    [packed] itself. *)
Definition network_address (n : IPv4Network) : Z :=
  Z.land (addr n) (netmask n).

Definition hostmask (n : IPv4Network) : Z :=
  Z.lxor (netmask n) ALL_ONES.

Definition broadcast_address (n : IPv4Network) : Z :=
  Z.lor (network_address n) (hostmask n).

(** [range(a, b)] with step 1. *)
Definition range (a b : Z) : list Z :=
  (λ k : nat, a + Z.of_nat k) <$> seq 0 (Z.to_nat (b - a)).

Definition iter (n : IPv4Network) : list Z :=
  range (network_address n) (broadcast_address n + 1).

Definition hosts (n : IPv4Network) : list Z :=
  if decide (prefixlen n = IPV4LENGTH - 1) then iter n
  else if decide (prefixlen n = IPV4LENGTH) then [addr n]
  else range (network_address n + 1) (broadcast_address n).

(** [ip_int.to_bytes(4, 'big')] *)
Definition to_bytes (ip_int : Z) : list Z :=
  [Z.land (Z.shiftr ip_int 24) 255; Z.land (Z.shiftr ip_int 16) 255;
   Z.land (Z.shiftr ip_int 8) 255; Z.land ip_int 255].

(** ['.'.join(map(str, ip_int.to_bytes(4, 'big')))] *)
Definition string_from_ip_int (ip_int : Z) : string :=
  String.concat "." (pretty <$> to_bytes ip_int).

End ipaddress.

(** ** device_scanner.py *)
Module DeviceScanner.

(** [self.scan_stats], without the two wall-clock entries. *)
Record scan_stats : Type := {
  total_ips : Z;
  scanned : Z;
  found : Z;
  errors : Z
}.

Definition init_stats : scan_stats :=
  {| total_ips := 0; scanned := 0; found := 0; errors := 0 |}.

Definition count_error (st : scan_stats) : scan_stats :=
  {| total_ips := total_ips st; scanned := scanned st;
     found := found st; errors := errors st + 1 |}.

Definition add_scanned (n : Z) (st : scan_stats) : scan_stats :=
  {| total_ips := total_ips st; scanned := scanned st + n;
     found := found st; errors := errors st |}.

Definition count_found (st : scan_stats) : scan_stats :=
  {| total_ips := total_ips st; scanned := scanned st;
     found := found st + 1; errors := errors st |}.

Definition set_total (n : Z) (st : scan_stats) : scan_stats :=
  {| total_ips := n; scanned := scanned st;
     found := found st; errors := errors st |}.

(** The dictionary [device_info] built from the status document [data];
    [now] is [datetime.now().isoformat()]. *)
Definition device_info (ip now : string) (data : json) : result record :=
  mac ← py_get data "mac_address" (JStr "UNKNOWN");
  id ← py_get data "id" (JStr "UNKNOWN");
  wifi ← py_get data "wifi_connected" (JBool false);
  fw ← py_get data "firmware_version" (JStr "UNKNOWN");
  up ← py_get data "uptime_seconds" (JNum 0);
  Return (<["ip_address" := JStr ip]>
         (<["mac_address" := mac]>
         (<["id" := id]>
         (<["wifi_connected" := wifi]>
         (<["firmware_version" := fw]>
         (<["uptime_seconds" := up]>
         (<["last_seen" := JStr now]>
         (<["online" := JBool true]> ∅)))))))).

(** The body of the [try] of [scan_device]: [Return None] is falling
    out of the [if] on a status other than 200. *)
Definition scan_attempt (ip now : string) (o : http_outcome)
  : result (option record) :=
  match o with
  | Raised e => Raise e
  | Response status body =>
      if decide (status = 200) then
        data ← body;
        info ← device_info ip now data;
        Return (Some info)
      else Return None
  end.

(** [scan_device]: the device found at [ip], if any, and the statistics
    after the probe. *)
Definition scan_device (st : scan_stats) (ip now : string) (o : http_outcome)
  : option record * scan_stats :=
  match scan_attempt ip now o with
  | inr r => (r, st)
  | inl TimeoutError => (None, st)
  | inl (ClientError _) => (None, st)
  | inl _ => (None, count_error st)
  end.

Section scan.
(** The network and the clock during one scan: the outcome of the GET
    of [/api/status] at each address, and the time it completes. *)
Variable net : string → http_outcome.
Variable clock : string → string.

(** [asyncio.gather] over the probes of [ips], results in the order
    of [ips]. *)
Fixpoint gather_scans (st : scan_stats) (ips : list string)
  : list (option record) * scan_stats :=
  match ips with
  | [] => ([], st)
  | ip :: ips' =>
      let '(r, st1) := scan_device st ip (clock ip) (net ip) in
      let '(rs, st2) := gather_scans st1 ips' in
      (r :: rs, st2)
  end.

Definition scan_batch (st : scan_stats) (ips : list string)
  : list record * scan_stats :=
  let '(results, st1) := gather_scans st ips in
  (omap id results, add_scanned (Z.of_nat (length ips)) st1).

(** [for device in devices: self.discovered_devices[mac] = device] *)
Fixpoint store_devices (devices : list record)
    (acc : gmap pykey record * scan_stats)
  : result (gmap pykey record * scan_stats) :=
  match devices with
  | [] => Return acc
  | device :: rest =>
      mac ← py_getitem (JObj device) "mac_address";
      k ← key_of mac;
      store_devices rest (<[k := device]> acc.1, count_found acc.2)
  end.

(** The loop over the batches, [starts] being the values of [i]. *)
Fixpoint scan_batches (batch_size : Z) (all_ips : list string)
    (starts : list Z) (acc : gmap pykey record * scan_stats)
  : result (gmap pykey record * scan_stats) :=
  match starts with
  | [] => Return acc
  | i :: starts' =>
      let batch := py_slice all_ips i (i + batch_size) in
      let '(devices, st) := scan_batch acc.2 batch in
      acc' ← store_devices devices (acc.1, st);
      scan_batches batch_size all_ips starts' acc'
  end.

(** [all_ips = [str(ip) for ip in self.network.hosts()]] *)
Definition all_ips (network : ipaddress.IPv4Network) : list string :=
  ipaddress.string_from_ip_int <$> ipaddress.hosts network.

(** [scan_network] of a freshly constructed scanner: the discovered
    devices keyed by MAC address, and the statistics. *)
Definition scan_network (network : ipaddress.IPv4Network)
    (concurrent_limit : Z)
  : result (gmap pykey record * scan_stats) :=
  let ips := all_ips network in
  let st := set_total (Z.of_nat (length ips)) init_stats in
  starts ← py_range 0 (Z.of_nat (length ips)) concurrent_limit;
  scan_batches concurrent_limit ips starts (∅, st).
End scan.

(** *** The registry file *)

(** [self.map_file] as the scanner finds it: absent, or present with
    [read] the outcome of opening it and of [json.load]. *)
Inductive file_state : Type :=
  | NoFile
  | File (read : result json).

(** What [load_existing_map] returns: a dictionary, or (from its last
    branch) whatever other value the file holds. *)
Inductive pyval : Type :=
  | PyDict (m : gmap pykey json)
  | PyOther (v : json).

(** [for d in v]: the elements [v] iterates over. *)
Definition py_iter (v : json) : result (list json) :=
  match v with
  | JArr l => Return l
  | JObj m => Return (JStr <$> (map_to_list m).*1)
  | JStr s => Return ((λ c, JStr (String c EmptyString)) <$> String.list_ascii_of_string s)
  | _ => Raise (TypeError "object is not iterable")
  end.

(** [{d['mac_address']: d for d in ds}], a later entry replacing an
    earlier one under the same key. *)
Fixpoint by_mac (ds : list json) (acc : gmap pykey json)
  : result (gmap pykey json) :=
  match ds with
  | [] => Return acc
  | d :: ds' =>
      mac ← py_getitem d "mac_address";
      k ← key_of mac;
      by_mac ds' (<[k := d]> acc)
  end.

(** The body of the [try] of [load_existing_map]. *)
Definition load_body (read : result json) : result pyval :=
  data ← read;
  match data with
  | JObj m =>
      match m !! "devices" with
      | Some devices =>
          ds ← py_iter devices;
          m' ← by_mac ds ∅;
          Return (PyDict m')
      | None => Return (PyDict (kmap KStr m))
      end
  | JArr l =>
      m' ← by_mac l ∅;
      Return (PyDict m')
  | _ => Return (PyOther data)
  end.

Definition load_existing_map (map_file : file_state) : pyval :=
  match map_file with
  | NoFile => PyDict ∅
  | File read =>
      match load_body read with
      | inr v => v
      | inl _ => PyDict ∅
      end
  end.

(** *** Merging *)

Section merge.
(** The MAC keys are only compared with each other.  The records of a
    map are distinct objects ([json.load] and [scan_device] build a new
    dictionary for each), so the writes through [merged[mac]] change the
    record stored under [mac] and no other.  This is the situation of
    [run], the only caller.  The [add] mode stores the discovered
    dictionary itself under a new key; a later call that is handed this
    result together with the same dictionaries as [new] would mark them
    offline through the shared object, and is outside this model. *)
Context {K : Type} `{Countable K}.

(** [for mac in merged: merged[mac]['online'] = False] *)
Definition mark_offline (merged : gmap K record) : gmap K record :=
  <["online" := JBool false]> <$> merged.

(** One iteration of the loop of the [add] mode; [device ∪ r] is
    [r.update(device)]. *)
Definition add_step (mac : K) (device : record) (merged : gmap K record)
  : gmap K record :=
  match merged !! mac with
  | Some r => <[mac := device ∪ r]> merged
  | None => <[mac := device]> merged
  end.

(** One iteration of the loop of the [update] mode. *)
Definition update_step (mac : K) (device : record) (merged : gmap K record)
  : gmap K record :=
  match merged !! mac with
  | Some r => <[mac := device ∪ r]> merged
  | None => merged
  end.

(** [merge_device_maps], [mode] being [self.mode]. *)
Definition merge_device_maps (mode : string) (existing new : gmap K record)
  : result (gmap K record) :=
  if decide (mode = "create") then Return new
  else if decide (mode = "add") then
    Return (map_fold add_step (mark_offline existing) new)
  else if decide (mode = "update") then
    Return (map_fold update_step (mark_offline existing) new)
  else Raise (ValueError ("Invalid mode: " +:+ mode)).
End merge.

(** [existing_map] seen as a map of device records, as
    [merge_device_maps] uses it in the [add] and [update] modes: every
    value is subscripted, which fails on one that is not a dictionary. *)
Definition as_record (v : json) : option record :=
  match v with
  | JObj r => Some r
  | _ => None
  end.

Definition as_device_map (m : gmap pykey json) : result (gmap pykey record) :=
  if decide (map_Forall (λ _ v, is_Some (as_record v)) m)
  then Return (omap as_record m)
  else Raise (TypeError "object does not support item assignment").

(** [final_map] in [run]: the map handed to [save_device_map], after
    loading the registry when the mode asks for it and merging the
    devices the scan discovered. *)
Definition run_final_map (mode : string) (map_file : file_state)
    (discovered : gmap pykey record)
  : result (gmap pykey record) :=
  if decide (mode = "add" ∨ mode = "update") then
    match load_existing_map map_file with
    | PyDict m =>
        existing_map ← as_device_map m;
        merge_device_maps mode existing_map discovered
    | PyOther (JStr _) => Raise (AttributeError "'str' object has no attribute 'copy'")
    | PyOther _ => Raise (TypeError "object has no len()")
    end
  else merge_device_maps mode ∅ discovered.

End DeviceScanner.

(** ** batch_controller.py *)
Module BatchController.

(** The dictionary [result] of [send_request]; [JNull] and [None] stand
    for Python's [None]. *)
Record request_result : Type := {
  device_id : json;
  ip_address : json;
  mac_address : json;
  success : bool;
  response : json;
  error : option string
}.

Definition set_response (body : json) (status : Z) (r : request_result)
  : request_result :=
  {| device_id := device_id r; ip_address := ip_address r;
     mac_address := mac_address r;
     success := bool_decide (status = 200);
     response := body; error := error r |}.

Definition set_error (msg : string) (r : request_result) : request_result :=
  {| device_id := device_id r; ip_address := ip_address r;
     mac_address := mac_address r; success := success r;
     response := response r; error := Some msg |}.

(** The two [except] clauses of [send_request]. *)
Definition on_exception (e : exn) (r : request_result) : request_result :=
  match e with
  | TimeoutError => set_error "Timeout" r
  | _ => set_error (exn_str e) r
  end.

(** [send_request], [o] being the outcome of [session.request]. *)
Definition send_request (device : record) (o : http_outcome)
  : result request_result :=
  ip ← py_getitem (JObj device) "ip_address";
  let r := {| device_id := dict_get device "id" (JStr "UNKNOWN");
              ip_address := ip;
              mac_address := dict_get device "mac_address" (JStr "UNKNOWN");
              success := false; response := JNull; error := None |} in
  Return (match o with
          | Response status (inr body) => set_response body status r
          | Response _ (inl e) => on_exception e r
          | Raised e => on_exception e r
          end).

(** [asyncio.gather] over [tasks]: the results in the order of the
    tasks, or the exception of the first task that raises. *)
Fixpoint gather {A} (tasks : list (result A)) : result (list A) :=
  match tasks with
  | [] => Return []
  | t :: tasks' =>
      r ← t;
      rs ← gather tasks';
      Return (r :: rs)
  end.

(** [batch_request]; [net i] is the outcome of the request of the
    [i]-th device of [devices]. *)
Definition batch_request (devices : list record) (net : nat → http_outcome)
  : result (list request_result) :=
  gather (imap (λ i device, send_request device (net i)) devices).

End BatchController.

(** ** id_manager.py *)
Module IDManager.

(** [scan_single_device]: the [try] body is that of
    [DeviceScanner.scan_device]; no handler counts anything. *)
Definition scan_single_device (ip now : string) (o : http_outcome)
  : option record :=
  match DeviceScanner.scan_attempt ip now o with
  | inr r => r
  | inl _ => None
  end.

(** The lines [provision_single_device] logs at error level. *)
Inductive diagnostic : Type :=
  | InvalidNetworkRange
  | NoDevicesFound
  | EnsureDeviceConnected
  | FailedToSetId (status : Z)
  | TimeoutConnecting (ip : json)
  | ErrorSettingId (msg : string)
  | MultipleDevicesFound (n : nat)
  | SingleDeviceOnly
  | Rule
  | FoundDevicesHeader
  | FoundDevice (i : nat) (ip id mac : json)
  | EnsureOnlyOne.

(** What [provision_single_device] does that can be seen from outside:
    the status probes, the ID change request, the error log. *)
Inductive event : Type :=
  | GetStatus (ip : string)
  | PostId (ip : json) (new_id : string)
  | LogError (d : diagnostic).

(** [if device:] *)
Definition truthy (device : option record) : option record :=
  match device with
  | Some d => if decide (d = ∅) then None else Some d
  | None => None
  end.

Section provision.
(** [ipaddress.ip_network(s, strict=False)], [None] for its
    [ValueError]; the probes and the clock as in the scanner; the
    outcome of the POST of [/api/id]. *)
Variable ip_network : string → option ipaddress.IPv4Network.
Variable net : string → http_outcome.
Variable clock : string → string.
Variable post_id : json → string → http_outcome.

(** One batch: the devices appended to [found_devices]. *)
Definition scan_batch (batch : list string) : list record :=
  omap (λ ip, truthy (scan_single_device ip (clock ip) (net ip))) batch.

(** One line of the listing: [device['ip_address']] and
    [device['id']] are formatted with a width, [device['mac_address']]
    without. *)
Definition found_line (i : nat) (device : record) : result diagnostic :=
  ip ← py_getitem (JObj device) "ip_address";
  _ ← py_format_spec ip;
  id ← py_getitem (JObj device) "id";
  _ ← py_format_spec id;
  mac ← py_getitem (JObj device) "mac_address";
  Return (FoundDevice i ip id mac).

(** The lines of the listing, numbered from [i]: those logged, and
    whether the loop completed. *)
Fixpoint list_found (i : nat) (devices : list record)
  : list event * result unit :=
  match devices with
  | [] => ([], Return ())
  | device :: rest =>
      match found_line i device with
      | inl e => ([], Raise e)
      | inr line =>
          let '(lines, r) := list_found (S i) rest in
          (LogError line :: lines, r)
      end
  end.

(** [ip], [mac] and [old_id] of the branch for exactly one device; the
    request goes to [ip]. *)
Definition found_address (device : record) : result json :=
  ip ← py_getitem (JObj device) "ip_address";
  mac ← py_getitem (JObj device) "mac_address";
  old_id ← py_getitem (JObj device) "id";
  Return ip.

(** The branch for exactly one device. *)
Definition set_id (device : record) (new_id : string)
  : list event * result bool :=
  match found_address device with
  | inl e => ([], Raise e)
  | inr ip =>
      match post_id ip new_id with
      | Response status _ =>
          if decide (status = 200) then ([PostId ip new_id], Return true)
          else ([PostId ip new_id; LogError (FailedToSetId status)],
                Return false)
      | Raised TimeoutError =>
          ([PostId ip new_id; LogError (TimeoutConnecting ip)], Return false)
      | Raised e =>
          ([PostId ip new_id; LogError (ErrorSettingId (exn_str e))],
           Return false)
      end
  end.

(** The branch for several devices. *)
Definition report_multiple (found_devices : list record)
  : list event * result bool :=
  let head := [LogError (MultipleDevicesFound (length found_devices));
               LogError SingleDeviceOnly; LogError Rule;
               LogError FoundDevicesHeader] in
  match list_found 1 found_devices with
  | (lines, inl e) => (head ++ lines, Raise e)
  | (lines, inr _) =>
      (head ++ lines ++ [LogError Rule; LogError EnsureOnlyOne], Return false)
  end.

(** [provision_single_device]: the events in the order they happen,
    and the value returned or the exception raised. *)
Definition provision_single_device (network_range new_id : string)
    (concurrent_limit : Z) : list event * result bool :=
  match ip_network network_range with
  | None => ([LogError InvalidNetworkRange], Return false)
  | Some network =>
      let all_ips := ipaddress.string_from_ip_int <$> ipaddress.hosts network in
      match py_range 0 (Z.of_nat (length all_ips)) concurrent_limit with
      | inl e => ([], Raise e)
      | inr starts =>
          let batches :=
            (λ i, py_slice all_ips i (i + concurrent_limit)) <$> starts in
          let probes := GetStatus <$> concat batches in
          let found_devices := concat (scan_batch <$> batches) in
          let '(evs, r) :=
            match found_devices with
            | [] => ([LogError NoDevicesFound; LogError EnsureDeviceConnected],
                     Return false)
            | [device] => set_id device new_id
            | _ => report_multiple found_devices
            end in
          (probes ++ evs, r)
      end
  end.
End provision.

End IDManager.

(** ** id_manager.py: the device map, set-id and auto-assign *)

(** [bool(v)] *)
Definition py_truthy (v : json) : bool :=
  match v with
  | JNull => false
  | JBool b => b
  | JNum n => bool_decide (n ≠ 0)
  | JStr s => bool_decide (s ≠ EmptyString)
  | JArr l => bool_decide (l ≠ [])
  | JObj m => bool_decide (m ≠ ∅)
  end.

(** [v == 'devices'] *)
Definition is_devices_str (v : json) : bool :=
  match v with
  | JStr s => bool_decide (s = "devices")
  | _ => false
  end.

(** [v == s] for a string [s]: a string equals only a string. *)
Definition py_eq_str (v : json) (s : string) : bool :=
  match v with
  | JStr s' => bool_decide (s' = s)
  | _ => false
  end.

Module IDRegistry.

(** [self.devices], [self.device_by_mac], [self.device_by_id] after a
    load that returned [True]. *)
Record tables : Type := {
  devices : list json;
  device_by_mac : gmap pykey record;
  device_by_id : gmap pykey (list record)
}.

(** [d[k].append(x)] on a [defaultdict(list)] *)
Definition append_to (k : pykey) (x : record) (d : gmap pykey (list record))
  : gmap pykey (list record) :=
  <[k := default [] (d !! k) ++ [x]]> d.

(** One iteration of the loop that builds the lookup tables. *)
Definition index_device (device : json)
    (t : gmap pykey record * gmap pykey (list record))
  : result (gmap pykey record * gmap pykey (list record)) :=
  mac ← py_get device "mac_address" JNull;
  dev_id ← py_get device "id" JNull;
  match device with
  | JObj d =>
      by_mac ← (if py_truthy mac
                then k ← key_of mac; Return (<[k := d]> t.1)
                else Return t.1);
      by_id ← (if py_truthy dev_id
               then k ← key_of dev_id; Return (append_to k d t.2)
               else Return t.2);
      Return (by_mac, by_id)
  | _ => Raise (AttributeError "object has no attribute 'get'")
  end.

Fixpoint index_devices (ds : list json)
    (t : gmap pykey record * gmap pykey (list record))
  : result (gmap pykey record * gmap pykey (list record)) :=
  match ds with
  | [] => Return t
  | device :: rest =>
      t' ← index_device device t;
      index_devices rest t'
  end.

(** The body of the [try] of [load_device_map]: the tables, or [None]
    for the [return False] after "Invalid device map format".  A list
    that holds the string ['devices'] is subscripted with it; for a
    string both outcomes of the membership test end in [False]. *)
Definition load_body (read : result json) : result (option tables) :=
  data ← read;
  devs ← match data with
         | JObj m =>
             match m !! "devices" with
             | Some v => Return (Some v)
             | None => Return None
             end
         | JArr l =>
             if existsb is_devices_str l
             then Raise (TypeError "list indices must be integers or slices, not str")
             else Return (Some data)
         | JStr _ => Return None
         | _ => Raise (TypeError "argument of this type is not iterable")
         end;
  match devs with
  | None => Return None
  | Some v =>
      ds ← DeviceScanner.py_iter v;
      t ← index_devices ds (∅, ∅);
      Return (Some {| devices := ds; device_by_mac := t.1; device_by_id := t.2 |})
  end.

(** [load_device_map]: the tables when it returns [True], [None] when
    it returns [False]. *)
Definition load_device_map (map_file : DeviceScanner.file_state)
  : option tables :=
  match map_file with
  | DeviceScanner.NoFile => None
  | DeviceScanner.File read =>
      match load_body read with
      | inr t => t
      | inl _ => None
      end
  end.


(** Whether [<] is defined between two keys. *)
Definition comparable (k1 k2 : pykey) : bool :=
  match k1, k2 with
  | KNum _, KNum _ | KStr _, KStr _ => true
  | _, _ => false
  end.

(** Whether [sorted(keys)] returns: with two keys or more, every key is
    compared with another one. *)
Definition sortable (keys : list pykey) : bool :=
  match keys with
  | [] | [_] => true
  | k :: _ => forallb (comparable k) keys
  end.

Definition is_str (v : json) : bool :=
  match v with
  | JStr _ => true
  | _ => false
  end.

Section set_device_id.
(** [str.upper]; the outcome of the POST of [/api/id]. *)
Variable upper : string → string.
Variable post_id : json → string → http_outcome.

(** The check for a duplicate, whose warning joins the MACs. *)
Definition warn_duplicate (t : tables) (mac_address new_id : string)
  : result unit :=
  match device_by_id t !! KStr new_id with
  | Some group =>
      if bool_decide (0 < length group)%nat then
        let existing_macs := (λ d, dict_get d "mac_address" JNull) <$> group in
        if existsb (λ m, py_eq_str m (upper mac_address)) existing_macs
        then Return ()
        else if forallb is_str existing_macs then Return ()
        else Raise (TypeError "sequence item: expected str instance")
      else Return ()
  | None => Return ()
  end.

(** [set_device_id]: the requests sent, as pairs of the address and the
    new ID, and the value returned or the exception raised. *)
Definition set_device_id (t : tables) (mac_address new_id : string)
  : list (json * string) * result bool :=
  match IDManager.truthy (device_by_mac t !! KStr (upper mac_address)) with
  | None =>
      if sortable (map_to_list (device_by_mac t)).*1
      then ([], Return false)
      else ([], Raise (TypeError "'<' not supported between these instances"))
  | Some device =>
      match py_getitem (JObj device) "ip_address" with
      | inl e => ([], Raise e)
      | inr ip =>
          match warn_duplicate t mac_address new_id with
          | inl e => ([], Raise e)
          | inr _ =>
              match post_id ip new_id with
              | Response status _ =>
                  ([(ip, new_id)], Return (bool_decide (status = 200)))
              | Raised _ => ([(ip, new_id)], Return false)
              end
          end
      end
  end.
End set_device_id.

(** [s.zfill(w)] *)
Definition zero_fill (w : nat) (s : string) : string :=
  Nat.iter (w - String.length s) (String.append "0") s.

(** [f"{n:03d}"]: at least three characters, the sign first. *)
Definition format_03d (n : Z) : string :=
  if decide (n < 0) then "-" +:+ zero_fill 2 (pretty (Z.abs_N n))
  else zero_fill 3 (pretty (Z.abs_N n)).

(** [f"{prefix}-{current_num:03d}"] *)
Definition new_id_for (prefix : string) (current_num : Z) : string :=
  prefix +:+ "-" +:+ format_03d current_num.

(** An element [(mac, old_id, new_id)] of [assignments]. *)
Record assignment : Type := {
  mac : json;
  old_id : json;
  new_id : string
}.

(** The loop of [auto_assign_ids] that fills [assignments], over
    [sorted_devices] (whose elements the key function of [sorted] has
    already used as dictionaries), from [current_num]. *)
Fixpoint assignments (prefix : string) (sorted_devices : list record)
    (current_num : Z) : list assignment :=
  match sorted_devices with
  | [] => []
  | device :: rest =>
      if py_truthy (dict_get device "online" JNull) then
        let new := new_id_for prefix current_num in
        if py_eq_str (dict_get device "id" (JStr "UNKNOWN")) new
        then assignments prefix rest current_num
        else {| mac := dict_get device "mac_address" JNull;
                old_id := dict_get device "id" (JStr "UNKNOWN");
                new_id := new |}
             :: assignments prefix rest (current_num + 1)
      else assignments prefix rest current_num
  end.

End IDRegistry.

(** ** batch_controller.py: the devices a command is sent to *)
Module BatchDevices.

(** [[d for d in devices if test(d)]] with a test that can raise. *)
Fixpoint select (test : json → result bool) (devices : list json)
  : result (list json) :=
  match devices with
  | [] => Return []
  | d :: rest =>
      b ← test d;
      rest' ← select test rest;
      Return (if b : bool then d :: rest' else rest')
  end.

(** [d.get('online', False)] as a condition. *)
Definition is_online (d : json) : result bool :=
  v ← py_get d "online" (JBool false);
  Return (py_truthy v).

(** The body of the [try] of [load_device_map]; [None] is the
    [sys.exit(1)] after "Invalid device map format". *)
Definition load_body (read : result json) : result (option (list json)) :=
  data ← read;
  devs ← match data with
         | JObj m =>
             match m !! "devices" with
             | Some v => Return (Some v)
             | None => Return None
             end
         | JArr l =>
             if existsb is_devices_str l
             then Raise (TypeError "list indices must be integers or slices, not str")
             else Return (Some data)
         | JStr _ => Return None
         | _ => Raise (TypeError "argument of this type is not iterable")
         end;
  match devs with
  | None => Return None
  | Some v =>
      ds ← DeviceScanner.py_iter v;
      online_devices ← select is_online ds;
      Return (Some online_devices)
  end.

(** [load_device_map]: the online devices, or [None] for
    [sys.exit(1)]. *)
Definition load_device_map (map_file : DeviceScanner.file_state)
  : option (list json) :=
  match map_file with
  | DeviceScanner.NoFile => None
  | DeviceScanner.File read =>
      match load_body read with
      | inr ds => ds
      | inl _ => None
      end
  end.

(** [pattern.search(d.get('id', ''))] as a condition; [search] tells
    whether the compiled pattern matches somewhere in a string. *)
Definition id_matches (search : string → bool) (d : json) : result bool :=
  v ← py_get d "id" (JStr EmptyString);
  match v with
  | JStr s => Return (search s)
  | _ => Raise (TypeError "expected string or bytes-like object")
  end.

(** The filters of [main]: [all_devices] is [args.all_devices],
    [filter_id] the compiled [args.filter_id] when that is given and
    not empty. *)
Definition apply_filters (all_devices : bool)
    (filter_id : option (string → bool)) (devices : list json)
  : result (list json) :=
  devices ← (if all_devices then Return devices
             else select is_online devices);
  match filter_id with
  | Some search => select (id_matches search) devices
  | None => Return devices
  end.

End BatchDevices.

(** ** device_scanner.py: the document of the map file *)
Module DeviceMapFile.

(** [output] of [save_device_map], which [json.dump] writes to the map
    file: [device_list] is [list(devices.values())] after the sort by
    address, [now] the time stamp, [mode] and [network] are [self.mode]
    and [str(self.network)]. *)
Definition output (now mode network : string) (device_list : list record)
  : json :=
  JObj (<["scan_time" := JStr now]>
       (<["scan_mode" := JStr mode]>
       (<["network_range" := JStr network]>
       (<["device_count" := JNum (Z.of_nat (length device_list))]>
       {["devices" := JArr (JObj <$> device_list)]})))).

End DeviceMapFile.

(** ** Definitions used by the statements *)

(** The two facts about the masks of a prefix length on which the
    enumeration of the hosts rests. *)
Definition mask_facts (p : Z) : Prop :=
  Z.lxor (ipaddress.ip_int_from_prefix p) ipaddress.ALL_ONES = 2 ^ (32 - p) - 1 ∧
  Z.land (ipaddress.ip_int_from_prefix p)
         (Z.lxor (ipaddress.ip_int_from_prefix p) ipaddress.ALL_ONES) = 0.

#[local] Instance mask_facts_dec p : Decision (mask_facts p).
Proof. unfold mask_facts. apply _. Defined.

(** 192.168.1.77/24 *)
Definition net_192_168_1 : ipaddress.IPv4Network :=
  {| ipaddress.addr := 3232235853; ipaddress.prefixlen := 24 |}.

(** A record as it is after [record['online'] = False]. *)
Definition offline (r : record) : record := <["online" := JBool false]> r.

(** Sample registry entries. *)
Definition device (ip mac id : string) (online : bool) : record :=
  <["ip_address" := JStr ip]>
  (<["mac_address" := JStr mac]>
  (<["id" := JStr id]>
  (<["online" := JBool online]> ∅))).

Definition mac_A : string := "34:5F:45:26:76:2C".
Definition mac_B : string := "34:5F:45:26:80:10".
Definition mac_C : string := "34:5F:45:27:01:44".
Definition device_A : record := device "192.168.1.20" mac_A "LOUD-001" true.
Definition device_A' : record := device "192.168.1.31" mac_A "STAGE-01" true.
Definition device_B : record := device "192.168.1.21" mac_B "LOUD-002" true.
Definition device_C : record := device "192.168.1.22" mac_C "LOUD-003" true.

(** An exception that neither of the two silent handlers of
    [scan_device] catches. *)
Definition unexpected (e : exn) : Prop :=
  e ≠ TimeoutError ∧ ∀ msg, e ≠ ClientError msg.

Definition is_dict (v : json) : Prop := ∃ d, v = JObj d.

(** The exchange succeeded: status 200 and a body that parses. *)
Definition answered_ok (o : http_outcome) : bool :=
  match o with
  | Response status (inr _) => bool_decide (status = 200)
  | _ => false
  end.

(** The exception the exchange ended with, if any. *)
Definition failure (o : http_outcome) : option exn :=
  match o with
  | Raised e => Some e
  | Response _ (inl e) => Some e
  | Response _ (inr _) => None
  end.


(** A device the dispatcher can address. *)
Definition addressed (device : record) : Prop :=
  is_Some (device !! "ip_address").

(** Five targets, the second and the fourth unreachable. *)
Definition target (i : nat) : record :=
  <["ip_address" := JStr ("192.168.1." +:+ pretty i)]>
  (<["id" := JStr ("LOUD-00" +:+ pretty i)]> ∅).

Definition five_devices : list record := target <$> seq 1 5.

Definition net5 (i : nat) : http_outcome :=
  match i with
  | 1%nat => Raised TimeoutError
  | 3%nat => Raised (ClientError "Cannot connect to host")
  | _ => Response 200 (inr (JObj {["status" := JStr "ok"]}))
  end.




(** The probe of one address during provisioning. *)
Definition probe (net : string → http_outcome) (clock : string → string)
    (ip : string) : option record :=
  IDManager.scan_single_device ip (clock ip) (net ip).

(** A network of two host addresses, 192.168.1.1 and 192.168.1.2, with
    one device at the first. *)
Definition lab_network : ipaddress.IPv4Network :=
  {| ipaddress.addr := 3232235776; ipaddress.prefixlen := 30 |}.

Definition lab_ip_network (s : string) : option ipaddress.IPv4Network :=
  if decide (s = "192.168.1.0/30") then Some lab_network else None.

Definition lab_net (ip : string) : http_outcome :=
  if decide (ip = "192.168.1.1")
  then Response 200 (inr (JObj {["id" := JStr "UNSET"]}))
  else Raised TimeoutError.

Definition lab_clock (ip : string) : string := "2025-01-01T00:00:00".

Definition lab_post_id (ip : json) (new_id : string) : http_outcome :=
  Response 200 (inr (JObj ∅)).

(** A registry record without [ip_address]. *)
Definition unaddressed : record := {["id" := JStr "LOUD-002"]}.



(** ** Definitions used by the further properties *)

(** A registry in which every record is stored under the key of its own
    [mac_address]. *)
Definition keyed_by_mac (m : gmap pykey record) : Prop :=
  ∀ k d, m !! k = Some d →
    ∃ mac, d !! "mac_address" = Some mac ∧ key_of mac = inr k.

(** Whether the probe of [ip] ends in the last handler of [scan_device]. *)
Definition counts_error (net : string → http_outcome) (clock : string → string)
    (ip : string) : bool :=
  match DeviceScanner.scan_attempt ip (clock ip) (net ip) with
  | inl TimeoutError | inl (ClientError _) | inr _ => false
  | inl _ => true
  end.

(** The key [scan_network] stores a found device under. *)
Definition device_key (device : record) : result pykey :=
  mac ← py_getitem (JObj device) "mac_address";
  key_of mac.

(** The keys of the found devices, or the exception of the first device
    without one. *)
Fixpoint device_keys (devices : list record) : result (list (pykey * record)) :=
  match devices with
  | [] => Return []
  | device :: rest =>
      k ← device_key device;
      kds ← device_keys rest;
      Return ((k, device) :: kds)
  end.

(** [discovered[k] = device] for each pair, in order. *)
Definition insert_all (kds : list (pykey * record)) (m : gmap pykey record)
  : gmap pykey record :=
  foldl (λ m kd, <[kd.1 := kd.2]> m) m kds.

(** The statistics after [n_ips] more probes, [n_found] of them finding
    a device and [n_errors] ending in an unexpected exception. *)
Definition tally (n_ips n_found n_errors : Z) (st : DeviceScanner.scan_stats)
  : DeviceScanner.scan_stats :=
  {| DeviceScanner.total_ips := DeviceScanner.total_ips st;
     DeviceScanner.scanned := DeviceScanner.scanned st + n_ips;
     DeviceScanner.found := DeviceScanner.found st + n_found;
     DeviceScanner.errors := DeviceScanner.errors st + n_errors |}.

(** The scan as one pass over all the addresses. *)
Definition scan_all (net : string → http_outcome) (clock : string → string)
    (ips : list string) (acc : gmap pykey record * DeviceScanner.scan_stats)
  : result (gmap pykey record * DeviceScanner.scan_stats) :=
  let devices := omap (probe net clock) ips in
  kds ← device_keys devices;
  Return (insert_all kds acc.1,
          tally (Z.of_nat (length ips)) (Z.of_nat (length devices))
                (Z.of_nat (length (filter (λ ip, counts_error net clock ip = true) ips)))
                acc.2).

(** Every address answers, and every device reports the same MAC. *)
Definition twin_net (ip : string) : http_outcome :=
  Response 200 (inr (JObj (<["mac_address" := JStr mac_A]> {["id" := JStr ip]}))).



(** [device.get('online')] as a condition. *)
Definition online (device : record) : bool :=
  py_truthy (dict_get device "online" JNull).

(** A device map with two devices that hold the same ID. *)
Definition shelf_record (mac id ip : string) : record :=
  <["mac_address" := JStr mac]>
    (<["id" := JStr id]> {["ip_address" := JStr ip]}).



(** An online device that holds [id]. *)
Definition unit_dev (id : string) : record :=
  <["online" := JBool true]> {["id" := JStr id]}.

(** A device map with an online and an offline device. *)
Definition reg_dev (id : string) (on : bool) : json :=
  JObj (<["online" := JBool on]> {["id" := JStr id]}).

Definition reg_file : DeviceScanner.file_state :=
  DeviceScanner.File
    (inr (JObj {["devices" := JArr [reg_dev "LF-1" true; reg_dev "LF-2" false]]})).

(** The key of a record's own [mac_address], [KNone] standing in when
    there is none. *)
Definition own_key (d : record) : pykey :=
  match device_key d with
  | inr k => k
  | inl _ => KNone
  end.

(** A device map in which a device without [mac_address] holds the ID
    [LF-9]. *)
Definition orphan_file : DeviceScanner.file_state :=
  DeviceScanner.File
    (inr (JArr [JObj (shelf_record "M1" "LF-1" "10.0.0.1");
                JObj {["id" := JStr "LF-9"]}])).

(** * Properties *)

(** ** Address enumeration *)
Section hosts.
Import ipaddress.

Lemma mask_facts_all : Forall mask_facts (Z.of_nat <$> seq 0 33).
Proof. refine (bool_decide_unpack (Forall mask_facts _) _). vm_compute. exact I. Qed.

Lemma mask_facts_prefix p : 0 ≤ p ≤ 32 → mask_facts p.
Proof.
  intros Hp. eapply Forall_forall; [apply mask_facts_all|].
  apply list_elem_of_fmap. exists (Z.to_nat p). split; [lia|].
  apply elem_of_seq. lia.
Qed.

Lemma length_range a b : Z.of_nat (length (range a b)) = Z.max 0 (b - a).
Proof. unfold range. rewrite length_fmap, length_seq. lia. Qed.

Lemma elem_of_range a b x : x ∈ range a b ↔ a ≤ x < b.
Proof.
  unfold range. rewrite list_elem_of_fmap. split.
  - intros (k & -> & Hk%elem_of_seq). lia.
  - intros Hx. exists (Z.to_nat (x - a)). split; [lia|]. apply elem_of_seq. lia.
Qed.

(** The broadcast address is the network address with all host bits
    set; the network address has none of them set, so the [lor] is a
    sum. *)
Lemma broadcast_offset n :
  0 ≤ prefixlen n ≤ 32 →
  broadcast_address n = network_address n + (2 ^ (32 - prefixlen n) - 1).
Proof.
  intros Hp. destruct (mask_facts_prefix _ Hp) as [Hh Hd].
  unfold broadcast_address, hostmask, network_address, netmask.
  pose proof (Z.land_assoc (addr n) (ip_int_from_prefix (prefixlen n))
    (Z.lxor (ip_int_from_prefix (prefixlen n)) ALL_ONES)) as Ha.
  rewrite Hd, Z.land_0_r in Ha. symmetry in Ha.
  rewrite <- Z.lxor_lor, <- Z.add_nocarry_lxor; [|done..].
  by rewrite Hh.
Qed.

Lemma elem_of_hosts n x :
  0 ≤ prefixlen n ≤ 30 →
  x ∈ hosts n ↔ network_address n < x < broadcast_address n.
Proof.
  intros Hp. unfold hosts, IPV4LENGTH.
  rewrite !decide_False by lia. rewrite elem_of_range. lia.
Qed.

(** C7: for an IPv4 range of prefix length at most 30, the enumeration
    [network.hosts()] that [scan_network] and [provision_single_device]
    turn into [all_ips] has exactly [2^(32-prefix) - 2] addresses, and
    neither the network address nor the broadcast address is among
    them. *)
Theorem hosts_count a p :
  0 ≤ p ≤ 30 →
  let n := {| addr := a; prefixlen := p |} in
  Z.of_nat (length (hosts n)) = 2 ^ (32 - p) - 2 ∧
  length (DeviceScanner.all_ips n) = length (hosts n) ∧
  (network_address n ∉ hosts n) ∧
  (broadcast_address n ∉ hosts n).
Proof.
  intros Hp n.
  assert (Hb : broadcast_address n = network_address n + (2 ^ (32 - p) - 1))
    by (apply broadcast_offset; simpl; lia).
  assert (Hpow : 2 ^ 2 ≤ 2 ^ (32 - p)) by (apply Z.pow_le_mono_r; lia).
  rewrite !elem_of_hosts by (simpl; lia).
  split; [|split; [apply length_fmap | lia]].
  unfold hosts, IPV4LENGTH. simpl prefixlen.
  rewrite !decide_False by lia. rewrite length_range. lia.
Qed.

Lemma hosts_count_witness :
  0 ≤ 24 ≤ 30 ∧
  Z.of_nat (length (hosts net_192_168_1)) = 254 ∧
  length (DeviceScanner.all_ips net_192_168_1) = length (hosts net_192_168_1) ∧
  (network_address net_192_168_1 ∉ hosts net_192_168_1) ∧
  (broadcast_address net_192_168_1 ∉ hosts net_192_168_1).
Proof. split; [lia|]. apply (hosts_count 3232235853 24). lia. Defined.

End hosts.

(** ** Merging discoveries into the registry *)
Section merge.
Import DeviceScanner.
Context {K : Type} `{Countable K}.
Implicit Types (existing new merged base : gmap K record) (mac : K)
  (r d : record).

Lemma lookup_mark_offline existing mac :
  mark_offline existing !! mac = offline <$> existing !! mac.
Proof. unfold mark_offline. by rewrite lookup_fmap. Qed.

Lemma lookup_offline r f :
  offline r !! f = if decide (f = "online") then Some (JBool false) else r !! f.
Proof.
  unfold offline. case_decide as Hf; [subst f|].
  - by rewrite lookup_insert_eq.
  - by rewrite lookup_insert_ne.
Qed.

(** [r.update(d)] field by field. *)
Lemma lookup_update d r f :
  (d ∪ r) !! f = match d !! f with Some v => Some v | None => r !! f end.
Proof. rewrite lookup_union. destruct (d !! f), (r !! f); done. Qed.

Lemma add_step_lookup mac' d merged mac :
  add_step mac' d merged !! mac =
    if decide (mac' = mac)
    then Some (from_option (λ r, d ∪ r) d (merged !! mac))
    else merged !! mac.
Proof.
  unfold add_step. case_decide as Hm; [subst mac'|].
  - destruct (merged !! mac); by rewrite lookup_insert_eq.
  - destruct (merged !! mac'); by rewrite ?lookup_insert_ne.
Qed.

Lemma update_step_lookup mac' d merged mac :
  update_step mac' d merged !! mac =
    if decide (mac' = mac)
    then (λ r, d ∪ r) <$> merged !! mac
    else merged !! mac.
Proof.
  unfold update_step. case_decide as Hm; [subst mac'|].
  - destruct (merged !! mac) eqn:E; by rewrite ?lookup_insert_eq, ?E.
  - destruct (merged !! mac'); by rewrite ?lookup_insert_ne.
Qed.

(** The loop of the [add] mode, entry by entry. *)
Lemma add_loop_lookup base new mac :
  map_fold add_step base new !! mac =
    match new !! mac with
    | Some d => Some (from_option (λ r, d ∪ r) d (base !! mac))
    | None => base !! mac
    end.
Proof.
  revert mac.
  apply (map_fold_weak_ind (λ res m, ∀ mac, res !! mac =
    match m !! mac with
    | Some d => Some (from_option (λ r, d ∪ r) d (base !! mac))
    | None => base !! mac
    end)).
  - intros mac. by rewrite lookup_empty.
  - intros i x m res Hi IH mac. rewrite add_step_lookup.
    case_decide as Hm; [subst i|].
    + by rewrite lookup_insert_eq, IH, Hi.
    + by rewrite lookup_insert_ne, IH.
Qed.

(** The loop of the [update] mode, entry by entry. *)
Lemma update_loop_lookup base new mac :
  map_fold update_step base new !! mac =
    match new !! mac with
    | Some d => (λ r, d ∪ r) <$> base !! mac
    | None => base !! mac
    end.
Proof.
  revert mac.
  apply (map_fold_weak_ind (λ res m, ∀ mac, res !! mac =
    match m !! mac with
    | Some d => (λ r, d ∪ r) <$> base !! mac
    | None => base !! mac
    end)).
  - intros mac. by rewrite lookup_empty.
  - intros i x m res Hi IH mac. rewrite update_step_lookup.
    case_decide as Hm; [subst i|].
    + by rewrite lookup_insert_eq, IH, Hi.
    + by rewrite lookup_insert_ne, IH.
Qed.

(** Python iterates [new.items()] in insertion order, [map_fold] in
    the order of the map; each iteration touches the entry of its own
    key only, so every order of the items gives the same map. *)
Lemma add_loop_any_order (items : list (K * record)) base :
  NoDup items.*1 →
  foldl (λ merged '(mac, device), add_step mac device merged) base items
  = map_fold add_step base (list_to_map items).
Proof.
  intros Hnd. apply map_eq. intros mac. rewrite add_loop_lookup.
  revert base Hnd. induction items as [|[k d] items IH]; intros base Hnd; simpl.
  - by rewrite lookup_empty.
  - apply NoDup_cons in Hnd as [Hk Hnd]. rewrite IH by done.
    rewrite add_step_lookup.
    destruct (decide (k = mac)) as [->|Hne].
    + rewrite lookup_insert_eq.
      by rewrite (not_elem_of_list_to_map_1 items mac).
    + by rewrite lookup_insert_ne.
Qed.

Lemma update_loop_any_order (items : list (K * record)) base :
  NoDup items.*1 →
  foldl (λ merged '(mac, device), update_step mac device merged) base items
  = map_fold update_step base (list_to_map items).
Proof.
  intros Hnd. apply map_eq. intros mac. rewrite update_loop_lookup.
  revert base Hnd. induction items as [|[k d] items IH]; intros base Hnd; simpl.
  - by rewrite lookup_empty.
  - apply NoDup_cons in Hnd as [Hk Hnd]. rewrite IH by done.
    rewrite update_step_lookup.
    destruct (decide (k = mac)) as [->|Hne].
    + rewrite lookup_insert_eq.
      by rewrite (not_elem_of_list_to_map_1 items mac).
    + by rewrite lookup_insert_ne.
Qed.

Lemma add_loop_empty new : map_fold add_step ∅ new = new.
Proof.
  apply map_eq. intros mac. rewrite add_loop_lookup, lookup_empty.
  by destruct (new !! mac).
Qed.

Lemma update_loop_empty new : map_fold update_step ∅ new = ∅.
Proof.
  apply map_eq. intros mac. rewrite update_loop_lookup, lookup_empty.
  by destruct (new !! mac).
Qed.

(** C1, as amended: under the [add] and the [update] policy, a device
    of the existing registry whose MAC address is not among the
    discovered ones is still in the merged map, its [online] field is
    [False], and every other field is as it was.  (The [create] policy
    returns the discovered map and so drops such a device.) *)
Theorem merge_keeps_absent mode existing new mac r :
  mode = "add" ∨ mode = "update" →
  existing !! mac = Some r →
  new !! mac = None →
  ∃ merged r',
    merge_device_maps mode existing new = inr merged ∧
    merged !! mac = Some r' ∧
    r' !! "online" = Some (JBool false) ∧
    ∀ f, f ≠ "online" → r' !! f = r !! f.
Proof.
  intros Hmode He Hn. unfold merge_device_maps.
  destruct Hmode as [-> | ->]; simpl;
    (eexists _, (offline r); split; [reflexivity|]; split;
     [| split; [by rewrite lookup_offline |
                intros f Hf; rewrite lookup_offline; by rewrite decide_False]]).
  - by rewrite add_loop_lookup, Hn, lookup_mark_offline, He.
  - by rewrite update_loop_lookup, Hn, lookup_mark_offline, He.
Qed.

(** C2: under the [update] policy the merged map has exactly the MAC
    keys of the existing map; a discovered record whose MAC is a key
    overwrites the fields it reports in the existing record, a
    discovered record whose MAC is not a key is not inserted; existing
    [{A}] with discovered [{A', B}] gives [{A'}]. *)
Theorem merge_update_spec existing new :
  ∃ merged,
    merge_device_maps "update" existing new = inr merged ∧
    dom merged = dom existing ∧
    (∀ mac d r, new !! mac = Some d → existing !! mac = Some r →
       ∃ r', merged !! mac = Some r' ∧
             ∀ f, r' !! f = match d !! f with
                            | Some v => Some v
                            | None => offline r !! f
                            end) ∧
    (∀ mac, existing !! mac = None → merged !! mac = None) ∧
    merge_device_maps "update" ({[mac_A := device_A]} : gmap string record)
        (<[mac_A := device_A']> {[mac_B := device_B]})
      = inr {[mac_A := device_A']}.
Proof.
  eexists. split; [reflexivity|]. split; [|split; [|split]].
  - apply set_eq. intros mac. rewrite !elem_of_dom, update_loop_lookup.
    rewrite lookup_mark_offline.
    destruct (new !! mac), (existing !! mac); simpl;
      split; intros [? ?]; by eauto.
  - intros mac d r Hn He. exists (d ∪ offline r). split.
    + by rewrite update_loop_lookup, Hn, lookup_mark_offline, He.
    + intros f. apply lookup_update.
  - intros mac He.
    rewrite update_loop_lookup, lookup_mark_offline, He.
    by destruct (new !! mac).
  - by vm_compute.
Qed.

(** C3: under the [add] policy, discovered records being those of a
    scan (they carry [online = True]): a discovered record whose MAC is
    a key updates the existing record field by field, the fields it
    does not report being kept, and the record ends with
    [online = True]; a discovered record whose MAC is not a key is
    inserted; an existing record that was not discovered is kept with
    [online = False]; existing [{A(online=true)}] with nothing
    discovered gives [{A(online=false)}]. *)
Theorem merge_add_spec existing new :
  (∀ mac d, new !! mac = Some d → d !! "online" = Some (JBool true)) →
  ∃ merged,
    merge_device_maps "add" existing new = inr merged ∧
    (∀ mac d r, new !! mac = Some d → existing !! mac = Some r →
       ∃ r', merged !! mac = Some r' ∧
             r' !! "online" = Some (JBool true) ∧
             ∀ f, r' !! f = match d !! f with
                            | Some v => Some v
                            | None => r !! f
                            end) ∧
    (∀ mac d, new !! mac = Some d → existing !! mac = None →
       merged !! mac = Some d) ∧
    (∀ mac r, existing !! mac = Some r → new !! mac = None →
       merged !! mac = Some (<["online" := JBool false]> r)) ∧
    (∀ mac, existing !! mac = None → new !! mac = None →
       merged !! mac = None) ∧
    merge_device_maps "add" ({[mac_A := device_A]} : gmap string record) ∅
      = inr {[mac_A := <["online" := JBool false]> device_A]}.
Proof.
  intros Hon. eexists. split; [reflexivity|].
  split; [|split; [|split; [|split]]].
  - intros mac d r Hn He. specialize (Hon _ _ Hn).
    exists (d ∪ offline r). split.
    + by rewrite add_loop_lookup, Hn, lookup_mark_offline, He.
    + split; [by rewrite lookup_update, Hon|].
      intros f. rewrite lookup_update, lookup_offline.
      case_decide; [subst f; by rewrite Hon | done].
  - intros mac d Hn He.
    by rewrite add_loop_lookup, Hn, lookup_mark_offline, He.
  - intros mac r He Hn.
    by rewrite add_loop_lookup, Hn, lookup_mark_offline, He.
  - intros mac He Hn.
    by rewrite add_loop_lookup, Hn, lookup_mark_offline, He.
  - by vm_compute.
Qed.

(** C4: under the [create] policy the merged map is the discovered
    map, whatever the existing map; existing [{A, B}] with discovered
    [{C}] gives [{C}]. *)
Theorem merge_create_spec existing new :
  merge_device_maps "create" existing new = inr new ∧
  merge_device_maps "create"
      (<[mac_A := device_A]> {[mac_B := device_B]} : gmap string record)
      {[mac_C := device_C]}
    = inr {[mac_C := device_C]}.
Proof. done. Qed.

End merge.

(** C1 as stated fails for the [create] policy: the registry holds
    device A, the scan discovers nothing, MAC A is not in the discovered
    set, and the merged map is empty. *)
Lemma merge_create_drops_absent :
  ({[mac_A := device_A]} : gmap string record) !! mac_A = Some device_A ∧
  (∅ : gmap string record) !! mac_A = None ∧
  DeviceScanner.merge_device_maps "create"
    ({[mac_A := device_A]} : gmap string record) ∅ = inr ∅ ∧
  ¬ ∃ merged r',
      DeviceScanner.merge_device_maps "create"
        ({[mac_A := device_A]} : gmap string record) ∅ = inr merged ∧
      merged !! mac_A = Some r'.
Proof.
  split; [done|]. split; [done|]. split; [done|].
  intros (merged & r' & Hm & Hr). injection Hm as <-.
  by rewrite lookup_empty in Hr.
Qed.

Lemma merge_keeps_absent_witness :
  ("add" = "add" ∨ "add" = "update") ∧
  ({[mac_A := device_A]} : gmap string record) !! mac_A = Some device_A ∧
  ({[mac_B := device_B]} : gmap string record) !! mac_A = None ∧
  ∃ merged r',
    DeviceScanner.merge_device_maps "add"
      ({[mac_A := device_A]} : gmap string record) {[mac_B := device_B]}
      = inr merged ∧
    merged !! mac_A = Some r' ∧
    r' !! "online" = Some (JBool false) ∧
    ∀ f, f ≠ "online" → r' !! f = device_A !! f.
Proof.
  split; [by left|]. split; [reflexivity|]. split; [reflexivity|].
  apply (merge_keeps_absent "add" {[mac_A := device_A]} {[mac_B := device_B]}
           mac_A device_A); [by left | reflexivity | reflexivity].
Defined.

Lemma merge_add_spec_witness :
  (∀ mac d, ({[mac_A := device_A']} : gmap string record) !! mac = Some d →
            d !! "online" = Some (JBool true)) ∧
  ∃ merged,
    DeviceScanner.merge_device_maps "add"
      ({[mac_A := device_A]} : gmap string record) {[mac_A := device_A']}
      = inr merged ∧
    ∃ r', merged !! mac_A = Some r' ∧ r' !! "online" = Some (JBool true).
Proof.
  assert (Hon : ∀ mac d,
            ({[mac_A := device_A']} : gmap string record) !! mac = Some d →
            d !! "online" = Some (JBool true)).
  { intros mac d [_ <-]%lookup_singleton_Some. reflexivity. }
  split; [exact Hon|].
  destruct (merge_add_spec {[mac_A := device_A]} {[mac_A := device_A']} Hon)
    as (merged & Hm & Hboth & _).
  exists merged. split; [exact Hm|].
  destruct (Hboth mac_A device_A' device_A eq_refl eq_refl) as (r' & Hr & Ho & _).
  exists r'. by split.
Defined.

(** ** Probing *)
Section scan_device.
Import DeviceScanner.
Implicit Types (st : scan_stats) (ip now : string) (o : http_outcome).

Lemma device_info_dict ip now d :
  ∃ info, device_info ip now (JObj d) = inr info ∧
          info !! "online" = Some (JBool true) ∧
          info !! "ip_address" = Some (JStr ip) ∧
          info !! "mac_address" = Some (dict_get d "mac_address" (JStr "UNKNOWN")) ∧
          info !! "id" = Some (dict_get d "id" (JStr "UNKNOWN")) ∧
          info ≠ ∅.
Proof.
  eexists. split; [reflexivity|].
  repeat split; by simplify_map_eq.
Qed.

Lemma device_info_not_dict ip now data :
  ¬ is_dict data → ∃ msg, device_info ip now data = inl (AttributeError msg).
Proof.
  intros Hd. destruct data; try (by eexists); [].
  destruct Hd. by eexists.
Qed.

Lemma device_info_online ip now data info :
  device_info ip now data = inr info → info !! "online" = Some (JBool true).
Proof.
  destruct data; try discriminate.
  destruct (device_info_dict ip now m) as (info' & -> & Hon & _).
  by intros [= <-].
Qed.

Lemma scan_device_found st ip now o d st' :
  scan_device st ip now o = (Some d, st') →
  d !! "online" = Some (JBool true).
Proof.
  unfold scan_device, scan_attempt.
  destruct o as [e | status [e | data]].
  - destruct e; intros [=].
  - case_decide; [destruct e|]; intros [=].
  - case_decide; [|intros [=]]. simpl.
    destruct (device_info ip now data) as [e | info] eqn:Hinfo; simpl.
    + destruct e; intros [=].
    + intros [= <- <-]. by eapply device_info_online.
Qed.

Lemma scan_device_raises st ip now e :
  scan_device st ip now (Raised e) =
    (None, match e with
           | TimeoutError | ClientError _ => st
           | _ => count_error st
           end).
Proof. by destruct e. Qed.

Lemma unexpected_cases e :
  unexpected e →
  match e with TimeoutError | ClientError _ => False | _ => True end.
Proof. intros [H1 H2]. destruct e; try done. by eapply H2. Qed.

(** C6: a probe returns a device record or nothing, and never raises.
    A status other than 200, a timeout and a transport failure give
    nothing and leave the statistics as they are; any other exception
    (raised by the request, by the decoding of the body, or by a body
    that is not an object) gives nothing and adds one to the error
    count; the probes of a batch all complete, one result per address,
    whatever the other addresses come to. *)
Theorem scan_device_outcomes st ip now :
  (∀ status body, status ≠ 200 →
     scan_device st ip now (Response status body) = (None, st)) ∧
  scan_device st ip now (Raised TimeoutError) = (None, st) ∧
  scan_device st ip now (Response 200 (inl TimeoutError)) = (None, st) ∧
  (∀ msg, scan_device st ip now (Raised (ClientError msg)) = (None, st)) ∧
  (∀ msg, scan_device st ip now (Response 200 (inl (ClientError msg))) = (None, st)) ∧
  (∀ e, unexpected e →
     scan_device st ip now (Raised e) = (None, count_error st) ∧
     scan_device st ip now (Response 200 (inl e)) = (None, count_error st)) ∧
  (∀ data, ¬ is_dict data →
     scan_device st ip now (Response 200 (inr data)) = (None, count_error st)) ∧
  (∀ d, ∃ info,
     scan_device st ip now (Response 200 (inr (JObj d))) = (Some info, st) ∧
     device_info ip now (JObj d) = inr info) ∧
  errors (count_error st) = errors st + 1 ∧
  (∀ net clock ips,
     length (gather_scans net clock st ips).1 = length ips ∧
     ∀ i ip', ips !! i = Some ip' →
       (∃ info, (gather_scans net clock st ips).1 !! i = Some (Some info) ∧
                ∃ d, net ip' = Response 200 (inr (JObj d))) ∨
       ((gather_scans net clock st ips).1 !! i = Some None ∧
        ¬ ∃ d, net ip' = Response 200 (inr (JObj d)))).
Proof.
  split; [|split; [|split; [|split; [|split; [|split; [|split; [|split; [|split]]]]]]]];
    try done.
  - intros status body Hs. unfold scan_device, scan_attempt.
    by rewrite decide_False.
  - intros e He%unexpected_cases. by destruct e.
  - intros data Hd. unfold scan_device, scan_attempt. simpl.
    by destruct (device_info_not_dict ip now data Hd) as [msg ->].
  - intros d. eexists. split; reflexivity.
  - intros net clock ips. revert st.
    induction ips as [|ip0 ips IH]; intros st; [split; [done|intros ??; by rewrite lookup_nil]|].
    simpl.
    destruct (scan_device st ip0 (clock ip0) (net ip0)) as [r st1] eqn:Hr.
    destruct (IH st1) as [IHlen IHi].
    destruct (gather_scans net clock st1 ips) as [rs st2] eqn:Hg. simpl in *.
    split; [by rewrite IHlen|].
    intros [|i] ip' Hi; simpl in *; [|by apply IHi].
    injection Hi as <-.
    unfold scan_device, scan_attempt in Hr.
    destruct (net ip0) as [e | status [e | data]].
    + right. split; [by destruct e; injection Hr as <- _|]. by intros [? [=]].
    + right. split; [|by intros [? [=]]].
      case_decide; [destruct e|]; by injection Hr as <- _.
    + case_decide as Hs; [|right; split; [by injection Hr as <- _|intros [? [=]]; done]].
      subst status. destruct data; simpl in Hr;
        try (right; split; [by injection Hr as <- _|by intros [? [=]]]).
      left. injection Hr as <- _. eauto.
Qed.

Lemma gather_scans_online net clock st ips :
  Forall (λ r, ∀ d, r = Some d → d !! "online" = Some (JBool true))
         (gather_scans net clock st ips).1.
Proof.
  revert st. induction ips as [|ip ips IH]; intros st; simpl; [done|].
  destruct (scan_device st ip (clock ip) (net ip)) as [r st1] eqn:Hr.
  specialize (IH st1).
  destruct (gather_scans net clock st1 ips) as [rs st2]. simpl in *.
  constructor; [|done]. intros d ->. by eapply scan_device_found.
Qed.

Lemma scan_batch_online net clock st ips :
  Forall (λ d : record, d !! "online" = Some (JBool true))
         (scan_batch net clock st ips).1.
Proof.
  unfold scan_batch.
  pose proof (gather_scans_online net clock st ips) as Hg.
  destruct (gather_scans net clock st ips) as [rs st1]. simpl in *.
  induction Hg as [|[d|] rs Hd Hg IH]; simpl; [done| |done].
  constructor; [by apply Hd | done].
Qed.

Lemma store_devices_online devices acc acc' :
  Forall (λ d : record, d !! "online" = Some (JBool true)) devices →
  map_Forall (λ _ (d : record), d !! "online" = Some (JBool true)) acc.1 →
  store_devices devices acc = inr acc' →
  map_Forall (λ _ (d : record), d !! "online" = Some (JBool true)) acc'.1.
Proof.
  intros Hd. revert acc. induction Hd as [|d ds Hd Hds IH]; intros acc Hacc; simpl.
  - by intros [= <-].
  - destruct (d !! "mac_address") as [mac|]; simpl; [|intros [=]].
    destruct (key_of mac) as [e|k]; simpl; [intros [=]|].
    apply IH. simpl. by apply map_Forall_insert_2.
Qed.

Lemma scan_batches_online net clock bs ips starts acc acc' :
  map_Forall (λ _ (d : record), d !! "online" = Some (JBool true)) acc.1 →
  scan_batches net clock bs ips starts acc = inr acc' →
  map_Forall (λ _ (d : record), d !! "online" = Some (JBool true)) acc'.1.
Proof.
  revert acc. induction starts as [|i starts IH]; intros acc Hacc; simpl.
  - by intros [= <-].
  - pose proof (scan_batch_online net clock acc.2 (py_slice ips i (i + bs))) as Hb.
    destruct (scan_batch net clock acc.2 (py_slice ips i (i + bs))) as [devs st].
    simpl in Hb.
    destruct (store_devices devs (acc.1, st)) as [e|acc1] eqn:Hs; simpl.
    { intros [=]. }
    apply IH. exact (store_devices_online devs (acc.1, st) acc1 Hb Hacc Hs).
Qed.

(** Every record [scan_network] returns was built by a successful probe
    and carries [online = True]. *)
Lemma scan_network_online net clock network concurrent_limit discovered st :
  scan_network net clock network concurrent_limit = inr (discovered, st) →
  ∀ mac d, discovered !! mac = Some d → d !! "online" = Some (JBool true).
Proof.
  unfold scan_network.
  destruct (py_range _ _ _) as [e|starts]; simpl; [intros [=]|].
  intros Hs mac d Hd.
  eapply scan_batches_online in Hs; [|simpl; apply map_Forall_empty].
  by eapply Hs.
Qed.
End scan_device.

(** ** Loading the registry *)
Section load.
Import DeviceScanner.

Lemma as_device_map_empty : as_device_map ∅ = inr ∅.
Proof. done. Qed.

Lemma load_body_raises_on_read e : load_body (inl e) = inl e.
Proof. done. Qed.

(** C9: [load_existing_map] returns the empty map when the file is
    absent, when opening or parsing it raises, and when the conversion
    of what was parsed raises: no exception leaves the function.  A run
    in [add] or [update] mode over such a file therefore computes the
    same final map as over an absent file: the discovered devices in
    [add] mode, nothing in [update] mode. *)
Theorem load_existing_map_swallows :
  load_existing_map NoFile = PyDict ∅ ∧
  (∀ e, load_existing_map (File (inl e)) = PyDict ∅) ∧
  (∀ read e, load_body read = inl e →
     load_existing_map (File read) = PyDict ∅) ∧
  load_body (inr (JArr [JNum 7])) = inl (TypeError "object is not subscriptable") ∧
  load_body (inr (JArr [JObj {["id" := JStr "LOUD-001"]}])) = inl (KeyError "mac_address") ∧
  (∀ e discovered,
     run_final_map "add" (File (inl e)) discovered
       = run_final_map "add" NoFile discovered ∧
     run_final_map "add" (File (inl e)) discovered = inr discovered ∧
     run_final_map "update" (File (inl e)) discovered
       = run_final_map "update" NoFile discovered ∧
     run_final_map "update" (File (inl e)) discovered = inr ∅).
Proof.
  split; [done|]. split; [done|]. split.
  { intros read e He. unfold load_existing_map. by rewrite He. }
  split; [done|]. split; [done|].
  intros e discovered. unfold run_final_map, merge_device_maps. simpl.
  rewrite as_device_map_empty. unfold mbind, result_bind, mark_offline.
  by rewrite !fmap_empty, add_loop_empty, update_loop_empty.
Qed.
End load.

(** ** Batch dispatch *)
Section batch.
Import BatchController.
Implicit Types (device : record) (devices : list record)
  (o : http_outcome) (net : nat → http_outcome).

Lemma send_request_returns device o :
  addressed device →
  ∃ r, send_request device o = inr r ∧
       device_id r = dict_get device "id" (JStr "UNKNOWN") ∧
       Some (ip_address r) = device !! "ip_address" ∧
       mac_address r = dict_get device "mac_address" (JStr "UNKNOWN") ∧
       success r = answered_ok o ∧
       (∀ status body, o = Response status (inr body) →
          response r = body ∧ error r = None) ∧
       (∀ e, failure o = Some e →
          success r = false ∧ response r = JNull ∧
          error r = Some (match e with
                          | TimeoutError => "Timeout"
                          | _ => exn_str e
                          end)).
Proof.
  intros [ip Hip]. unfold send_request. simpl. rewrite Hip. simpl.
  eexists. split; [reflexivity|].
  destruct o as [e | status [e | body]]; simpl.
  - do 4 (split; [by destruct e|]). split; [done|].
    intros e' [= <-]. by destruct e.
  - do 4 (split; [by destruct e|]). split; [done|].
    intros e' [= <-]. by destruct e.
  - do 4 (split; [done|]). split; [|done]. by intros ?? [= _ <-].
Qed.

Lemma gather_imap {A B} (f : nat → A → result B) (l : list A) :
  (∀ i x, l !! i = Some x → ∃ y, f i x = inr y) →
  ∃ ys, gather (imap f l) = inr ys ∧ length ys = length l ∧
        ∀ i x, l !! i = Some x → ∃ y, ys !! i = Some y ∧ f i x = inr y.
Proof.
  revert f. induction l as [|x l IH]; intros f Hf.
  { exists []. split; [done|]. split; [done|]. intros ??. by rewrite lookup_nil. }
  destruct (Hf 0%nat x eq_refl) as [y Hy].
  destruct (IH (f ∘ S)) as (ys & Hys & Hlen & Hi).
  { intros i x' Hx'. by apply (Hf (S i)). }
  exists (y :: ys). simpl. rewrite Hy. simpl. rewrite Hys. simpl.
  split; [done|]. split; [by rewrite Hlen|].
  intros [|i] x' Hx'; simpl in *.
  - injection Hx' as <-. eauto.
  - by apply Hi.
Qed.

(** C5, as amended: for a list of devices that each carry an
    [ip_address] (on a record without one [batch_request] raises),
    [batch_request] returns one result per device, in the order of the
    devices; the result of a device carries its id, and is what
    [send_request] makes of that device and of the outcome of its own
    request: success exactly on a 200 with a JSON body, otherwise no
    success and, when the exchange raised (timeout, refused connection,
    body that is not JSON), the error text.  Changing what the other
    requests come to leaves the result of a device as it is.  Of five
    targets with two unreachable, five results come back, three with
    success and two with an error. *)
Theorem batch_request_isolated devices net :
  Forall addressed devices →
  ∃ results,
    batch_request devices net = inr results ∧
    length results = length devices ∧
    (∀ i device, devices !! i = Some device →
       ∃ r, results !! i = Some r ∧
            send_request device (net i) = inr r ∧
            device_id r = dict_get device "id" (JStr "UNKNOWN") ∧
            success r = answered_ok (net i) ∧
            (∀ status body, net i = Response status (inr body) →
               response r = body ∧ error r = None) ∧
            (∀ e, failure (net i) = Some e →
               success r = false ∧ response r = JNull ∧ is_Some (error r))) ∧
    (∀ net' i, net' i = net i →
       ∃ results', batch_request devices net' = inr results' ∧
                   results' !! i = results !! i) ∧
    ∃ results5,
      batch_request five_devices net5 = inr results5 ∧
      length results5 = 5%nat ∧
      length (filter (λ r, success r = true) results5) = 3%nat ∧
      length (filter (λ r, success r = false ∧ is_Some (error r)) results5) = 2%nat.
Proof.
  intros Haddr.
  assert (Hall : ∀ net0, ∃ results,
            batch_request devices net0 = inr results ∧
            length results = length devices ∧
            ∀ i device, devices !! i = Some device →
              ∃ r, results !! i = Some r ∧
                   send_request device (net0 i) = inr r).
  { intros net0. apply gather_imap. intros i device Hi.
    destruct (send_request_returns device (net0 i)) as (r & Hr & _); [|by eauto].
    eapply Forall_lookup_1; eauto. }
  destruct (Hall net) as (results & Hres & Hlen & Hi).
  exists results. split; [done|]. split; [done|]. split; [|split].
  - intros i device Hd. destruct (Hi i device Hd) as (r & Hr & Hsend).
    exists r. split; [done|]. split; [done|].
    destruct (send_request_returns device (net i)) as (r' & Hr' & Hid & _ & _ & Hs & Hok & Hf).
    { eapply Forall_lookup_1; eauto. }
    rewrite Hsend in Hr'. injection Hr' as <-.
    split; [done|]. split; [done|]. split; [done|].
    intros e He. destruct (Hf e He) as (? & ? & ->). eauto.
  - intros net' i Heq.
    destruct (Hall net') as (results' & Hres' & Hlen' & Hi').
    exists results'. split; [done|].
    destruct (devices !! i) as [device|] eqn:Hd.
    + destruct (Hi i device Hd) as (r & -> & Hsend).
      destruct (Hi' i device Hd) as (r' & -> & Hsend').
      rewrite Heq, Hsend in Hsend'. by injection Hsend' as <-.
    + apply lookup_ge_None in Hd.
      rewrite !(proj2 (lookup_ge_None _ _)) by lia. done.
  - eexists. split; [by vm_compute|]. by vm_compute.
Qed.

(** C10: a request answered with status 200 and a body that
    [response.json()] cannot decode is recorded as a failure:
    [success] stays false, [response] stays [None], and [error] holds
    the text of the decoding exception.  [success] is true exactly for
    a status 200 whose body decodes. *)
Theorem send_request_unparsable_body device e :
  addressed device →
  ∃ r,
    send_request device (Response 200 (inl e)) = inr r ∧
    success r = false ∧
    response r = JNull ∧
    error r = Some (match e with
                    | TimeoutError => "Timeout"
                    | _ => exn_str e
                    end) ∧
    ∀ o, ∃ r', send_request device o = inr r' ∧
               (success r' = true ↔ ∃ body, o = Response 200 (inr body)).
Proof.
  intros Ha.
  destruct (send_request_returns device (Response 200 (inl e)) Ha)
    as (r & Hr & _ & _ & _ & _ & _ & Hf).
  exists r. split; [done|].
  destruct (Hf e eq_refl) as (? & ? & ?). do 3 (split; [done|]).
  intros o.
  destruct (send_request_returns device o Ha) as (r' & Hr' & _ & _ & _ & Hs & _).
  exists r'. split; [done|]. rewrite Hs. split.
  - destruct o as [e' | status [e' | body]]; simpl; try done.
    intros ->%bool_decide_eq_true. eauto.
  - intros [body ->]. done.
Qed.
End batch.


Lemma batch_request_isolated_witness :
  Forall addressed five_devices ∧
  ∃ results,
    BatchController.batch_request five_devices net5 = inr results ∧
    length results = length five_devices.
Proof.
  assert (Ha : Forall addressed five_devices).
  { repeat constructor; by eexists. }
  split; [exact Ha|].
  destruct (batch_request_isolated five_devices net5 Ha) as (results & Hr & Hlen & _).
  exists results. by split.
Defined.

(** C5 as stated, for every device list, fails on a list with a record
    that has no [ip_address]: [send_request] subscripts
    [device['ip_address']] before its [try], the [KeyError] leaves
    [gather], and [batch_request] raises instead of returning one
    result per device; the two devices that answer get no result
    either. *)
Lemma batch_request_unaddressed_raises :
  ¬ addressed unaddressed ∧
  net5 0 = Response 200 (inr (JObj {["status" := JStr "ok"]})) ∧
  net5 2 = Response 200 (inr (JObj {["status" := JStr "ok"]})) ∧
  BatchController.batch_request [target 1; unaddressed; target 3] net5
    = inl (KeyError "ip_address") ∧
  ¬ ∃ results,
      BatchController.batch_request [target 1; unaddressed; target 3] net5
        = inr results ∧
      length results = 3%nat.
Proof.
  split.
  { intros [v Hv]. unfold unaddressed in Hv.
    by rewrite lookup_singleton_ne in Hv. }
  split; [done|]. split; [done|].
  assert (BatchController.batch_request [target 1; unaddressed; target 3] net5
          = inl (KeyError "ip_address")) as Hraise by (by vm_compute).
  split; [exact Hraise|].
  intros (results & Hr & _). rewrite Hraise in Hr. discriminate.
Qed.

Lemma send_request_unparsable_body_witness :
  addressed (target 1) ∧
  ∃ r,
    BatchController.send_request (target 1)
      (Response 200 (inl (ValueError "Expecting value: line 1 column 1 (char 0)")))
      = inr r ∧
    BatchController.success r = false ∧
    BatchController.error r = Some "Expecting value: line 1 column 1 (char 0)".
Proof.
  assert (Ha : addressed (target 1)) by (by eexists).
  split; [exact Ha|].
  destruct (send_request_unparsable_body (target 1)
              (ValueError "Expecting value: line 1 column 1 (char 0)") Ha)
    as (r & Hr & Hs & _ & He & _).
  exists r. by repeat split.
Defined.

(** ** Single-device provisioning *)
Section batching.
Context {A : Type}.
Implicit Types (l : list A).

Lemma chunks_take l (b C : nat) :
  concat ((λ k : nat, take b (drop (k * b) l)) <$> seq 0 C) = take (C * b) l.
Proof.
  induction C as [|C IH]; [done|].
  rewrite seq_S, fmap_app, concat_app, IH. simpl.
  rewrite app_nil_r, take_take_drop. f_equal. lia.
Qed.

Lemma batches_cover l (bs : Z) :
  0 < bs →
  ∃ starts, py_range 0 (Z.of_nat (length l)) bs = inr starts ∧
            concat ((λ i, py_slice l i (i + bs)) <$> starts) = l.
Proof.
  intros Hbs. unfold py_range.
  rewrite decide_False by lia. rewrite decide_True by lia.
  eexists. split; [reflexivity|].
  set (C := Z.to_nat ((Z.of_nat (length l) - 0 + bs - 1) / bs)).
  rewrite <- list_fmap_compose.
  rewrite (list_fmap_ext _ (λ k : nat, take (Z.to_nat bs) (drop (k * Z.to_nat bs) l))).
  - rewrite chunks_take. apply take_ge.
    pose proof (Z.mul_succ_div_gt (Z.of_nat (length l) - 0 + bs - 1) bs Hbs).
    assert (0 ≤ (Z.of_nat (length l) - 0 + bs - 1) / bs)
      by (apply Z.div_pos; lia).
    unfold C. nia.
  - intros _ k _. simpl. unfold py_slice. f_equal; [f_equal; lia|].
    f_equal. lia.
Qed.
End batching.

Section provision.
Import IDManager.
Variable ip_network : string → option ipaddress.IPv4Network.
Variable net : string → http_outcome.
Variable clock : string → string.
Variable post_id : json → string → http_outcome.

Local Abbreviation probe := (probe net clock).








End provision.

(** The lab network: two addresses probed, one device, one request. *)
Example provision_lab :
  IDManager.provision_single_device lab_ip_network lab_net lab_clock lab_post_id
    "192.168.1.0/30" "TEST-01" 50
  = ([IDManager.GetStatus "192.168.1.1"; IDManager.GetStatus "192.168.1.2";
      IDManager.PostId (JStr "192.168.1.1") "TEST-01"], inr true).
Proof. by vm_compute. Qed.



(** ** The model on concrete inputs *)

Example dotted_quad : ipaddress.string_from_ip_int 3232235777 = "192.168.1.1".
Proof. reflexivity. Qed.

Example hosts_slash_30 :
  ipaddress.hosts {| ipaddress.addr := 3232235776; ipaddress.prefixlen := 30 |}
  = [3232235777; 3232235778].
Proof. reflexivity. Qed.

(** A /31 keeps both of its addresses, a /32 its single one: the bound of
    30 on the prefix length in the count of the hosts is needed. *)
Example hosts_slash_31 :
  ipaddress.hosts {| ipaddress.addr := 3232235776; ipaddress.prefixlen := 31 |}
  = [3232235776; 3232235777].
Proof. reflexivity. Qed.

Example hosts_slash_32 :
  ipaddress.hosts {| ipaddress.addr := 3232235777; ipaddress.prefixlen := 32 |}
  = [3232235777].
Proof. reflexivity. Qed.

Example batches_of_two :
  py_range 0 5 2 = inr [0; 2; 4] ∧
  (λ i, py_slice [1; 2; 3; 4; 5] i (i + 2)) <$> [0; 2; 4]
  = [[1; 2]; [3; 4]; [5]].
Proof. split; reflexivity. Qed.

Example scan_device_json_list :
  DeviceScanner.scan_device DeviceScanner.init_stats "192.168.1.9" "t"
    (Response 200 (inr (JArr [])))
  = (None, DeviceScanner.count_error DeviceScanner.init_stats).
Proof. reflexivity. Qed.

Example load_registry_file :
  DeviceScanner.load_existing_map
    (DeviceScanner.File (inr (JObj {["devices" := JArr [JObj device_A]]})))
  = DeviceScanner.PyDict {[KStr mac_A := JObj device_A]}.
Proof. by vm_compute. Qed.

Example merge_invalid_mode :
  DeviceScanner.merge_device_maps "delete"
    ({[mac_A := device_A]} : gmap string record) ∅
  = inl (ValueError "Invalid mode: delete").
Proof. reflexivity. Qed.

(** * Further properties *)

(** ** Merging, continued *)
Section merge_more.
Import DeviceScanner.
Context {K : Type} `{Countable K}.
Implicit Types (existing new merged : gmap K record) (mac : K) (r d : record).

Lemma merge_lookup mode existing new merged mac :
  merge_device_maps mode existing new = inr merged →
  merged !! mac =
    if decide (mode = "create") then new !! mac
    else if decide (mode = "add") then
      match new !! mac with
      | Some d => Some (from_option (λ r, d ∪ offline r) d (existing !! mac))
      | None => offline <$> existing !! mac
      end
    else
      match new !! mac with
      | Some d => (λ r, d ∪ offline r) <$> existing !! mac
      | None => offline <$> existing !! mac
      end.
Proof.
  unfold merge_device_maps.
  repeat case_decide; intros [= <-]; [done| |].
  - rewrite add_loop_lookup, lookup_mark_offline.
    by destruct (new !! mac), (existing !! mac).
  - rewrite update_loop_lookup, lookup_mark_offline.
    by destruct (new !! mac), (existing !! mac).
Qed.

(** X1: the key set of the merged map is that of the discovered map
    under [create], the union of the existing and the discovered keys
    under [add], and that of the existing map under [update]; so [add]
    never loses a key and [update] never gains one. *)
Theorem merge_key_sets existing new :
  ∃ created added updated,
    merge_device_maps "create" existing new = inr created ∧
    merge_device_maps "add" existing new = inr added ∧
    merge_device_maps "update" existing new = inr updated ∧
    dom created = dom new ∧
    dom added = dom existing ∪ dom new ∧
    dom updated = dom existing.
Proof.
  eexists _, _, _. split; [reflexivity|]. split; [reflexivity|].
  split; [reflexivity|]. split; [done|]. split.
  - apply set_eq. intros mac.
    rewrite elem_of_union, !elem_of_dom, add_loop_lookup, lookup_mark_offline.
    destruct (new !! mac), (existing !! mac); simpl; split;
      try (intros [[? ?]|[? ?]]); try (intros [? ?]); eauto; done.
  - apply set_eq. intros mac.
    rewrite !elem_of_dom, update_loop_lookup, lookup_mark_offline.
    destruct (new !! mac), (existing !! mac); simpl; split;
      intros [? ?]; eauto; done.
Qed.

Lemma offline_offline r : offline (offline r) = offline r.
Proof. unfold offline. apply insert_insert_eq. Qed.

Lemma update_offline_update d r : d ∪ offline (d ∪ offline r) = d ∪ offline r.
Proof.
  apply map_eq. intros f. rewrite !lookup_update, !lookup_offline, lookup_update.
  destruct (d !! f); [done|]. case_decide; [done|]. by rewrite lookup_offline, decide_False.
Qed.

Lemma update_own_offline d : is_Some (d !! "online") → d ∪ offline d = d.
Proof.
  intros [v Hv]. apply map_eq. intros f. rewrite lookup_update, lookup_offline.
  destruct (d !! f) eqn:E; [done|]. case_decide; [subst; congruence | done].
Qed.

(** Over the values of the records: merging equal discoveries into the
    result of a merge gives that result again, under each policy, when
    every discovered record has an [online] field.  This is used below
    for a second run, whose records are new dictionaries. *)
Lemma merge_idempotent mode existing new merged :
  (∀ mac d, new !! mac = Some d → is_Some (d !! "online")) →
  merge_device_maps mode existing new = inr merged →
  merge_device_maps mode merged new = inr merged.
Proof.
  intros Hon Hm.
  assert (Hex : ∃ again, merge_device_maps mode merged new = inr again).
  { revert Hm. unfold merge_device_maps. repeat case_decide; eauto. }
  destruct Hex as [again Ha]. rewrite Ha. f_equal.
  apply map_eq. intros mac.
  rewrite (merge_lookup _ _ _ _ mac Ha), (merge_lookup _ _ _ _ mac Hm).
  repeat case_decide; [done| |].
  - destruct (new !! mac) as [d|] eqn:Hn, (existing !! mac) as [r|]; simpl;
      rewrite ?update_offline_update, ?offline_offline; try done.
    rewrite update_own_offline; [done|]. by eapply Hon.
  - destruct (new !! mac) as [d|], (existing !! mac) as [r|]; simpl;
      rewrite ?update_offline_update, ?offline_offline; try done.
Qed.

(** X3: after an [add] or [update] merge of scan records, the records
    of the merged map with [online = True] are exactly those whose MAC
    was discovered in this scan. *)
Theorem merge_online_is_discovered mode existing new merged mac r' :
  mode = "add" ∨ mode = "update" →
  (∀ mac d, new !! mac = Some d → d !! "online" = Some (JBool true)) →
  merge_device_maps mode existing new = inr merged →
  merged !! mac = Some r' →
  (r' !! "online" = Some (JBool true) ↔ is_Some (new !! mac)).
Proof.
  intros Hmode Hon Hm Hr. rewrite (merge_lookup _ _ _ _ mac Hm) in Hr.
  destruct Hmode as [-> | ->]; simpl in Hr;
    destruct (new !! mac) as [d|] eqn:Hn, (existing !! mac) as [r|]; simpl in Hr;
    try discriminate; injection Hr as <-;
    rewrite ?lookup_update, ?lookup_offline, ?(Hon _ _ Hn); simpl;
    split; try done; try (by eauto); try (by intros [? [=]]).
Qed.
End merge_more.

Section keyed.
Import DeviceScanner.
Implicit Types (existing new merged : gmap pykey record).

(** X4: if every record of the existing map and of the discovered map
    is stored under the key of its own [mac_address], so is every record
    of the merged map. *)
Theorem merge_keeps_keyed_by_mac mode existing new merged :
  keyed_by_mac existing →
  keyed_by_mac new →
  merge_device_maps mode existing new = inr merged →
  keyed_by_mac merged.
Proof.
  intros He Hn Hm k r' Hr. rewrite (merge_lookup _ _ _ _ k Hm) in Hr.
  assert (Hoff : ∀ r : record, (∃ mac, r !! "mac_address" = Some mac ∧ key_of mac = inr k) →
            ∃ mac, offline r !! "mac_address" = Some mac ∧ key_of mac = inr k).
  { intros r (mac & ? & ?). exists mac. by rewrite lookup_offline, decide_False. }
  assert (Hup : ∀ d r : record, (∃ mac, d !! "mac_address" = Some mac ∧ key_of mac = inr k) →
            ∃ mac, (d ∪ r) !! "mac_address" = Some mac ∧ key_of mac = inr k).
  { intros d r (mac & Hd & ?). exists mac. by rewrite lookup_update, Hd. }
  repeat case_decide.
  - by eapply Hn.
  - destruct (new !! k) as [d|] eqn:Hd, (existing !! k) as [r|] eqn:Hx;
      simpl in Hr; try discriminate; injection Hr as <-; eauto.
  - destruct (new !! k) as [d|] eqn:Hd, (existing !! k) as [r|] eqn:Hx;
      simpl in Hr; try discriminate; injection Hr as <-; eauto.
Qed.
End keyed.

(** ** The scan as a whole *)
Section scan_closed.
Import DeviceScanner.
Variable net : string → http_outcome.
Variable clock : string → string.
Implicit Types (st : scan_stats) (ips : list string) (m : gmap pykey record).

Lemma tally_0 st : tally 0 0 0 st = st.
Proof. destruct st. unfold tally. simpl. f_equal; lia. Qed.

Lemma tally_tally a b c a' b' c' st :
  tally a b c (tally a' b' c' st) = tally (a' + a) (b' + b) (c' + c) st.
Proof. unfold tally. simpl. f_equal; lia. Qed.

Lemma scan_device_closed st ip :
  scan_device st ip (clock ip) (net ip)
  = (probe net clock ip, tally 0 0 (Z.b2z (counts_error net clock ip)) st).
Proof.
  unfold scan_device, probe, IDManager.scan_single_device, counts_error.
  destruct (scan_attempt ip (clock ip) (net ip)) as [e|r].
  - destruct e; simpl; f_equal; rewrite ?tally_0; try done;
      destruct st; unfold tally, count_error; simpl; f_equal; lia.
  - simpl. by rewrite tally_0.
Qed.

Lemma gather_scans_closed st ips :
  gather_scans net clock st ips
  = (probe net clock <$> ips,
     tally 0 0 (Z.of_nat (length (filter (λ ip, counts_error net clock ip = true) ips))) st).
Proof.
  revert st. induction ips as [|ip ips IH]; intros st; simpl.
  - by rewrite tally_0.
  - rewrite scan_device_closed, IH, tally_tally. f_equal. f_equal.
    destruct (counts_error net clock ip) eqn:Hc.
    + rewrite filter_cons_True by done. simpl. lia.
    + rewrite filter_cons_False by (by rewrite Hc). simpl. lia.
Qed.

Lemma omap_id_fmap {A B} (f : A → option B) (l : list A) :
  omap id (f <$> l) = omap f l.
Proof.
  induction l as [|x l IH]; [done|].
  rewrite fmap_cons. cbn [omap list_omap]. simpl. by rewrite <- IH.
Qed.

Lemma scan_batch_closed st ips :
  scan_batch net clock st ips
  = (omap (probe net clock) ips,
     tally (Z.of_nat (length ips)) 0
       (Z.of_nat (length (filter (λ ip, counts_error net clock ip = true) ips))) st).
Proof.
  unfold scan_batch. rewrite gather_scans_closed, omap_id_fmap. f_equal.
  unfold add_scanned, tally. simpl. f_equal; lia.
Qed.

Lemma store_devices_closed devices m st :
  store_devices devices (m, st)
  = kds ← device_keys devices;
    Return (insert_all kds m, tally 0 (Z.of_nat (length devices)) 0 st).
Proof.
  revert m st. induction devices as [|d ds IH]; intros m st.
  - simpl. by rewrite tally_0.
  - cbn [store_devices device_keys]. unfold device_key.
    destruct (py_getitem (JObj d) "mac_address") as [e|mac]; [done|]. simpl.
    destruct (key_of mac) as [e|k]; [done|]. simpl.
    rewrite IH. destruct (device_keys ds) as [e|kds]; [done|]. simpl.
    f_equal. f_equal. unfold count_found, tally. simpl. f_equal; lia.
Qed.

Lemma device_keys_app l1 l2 :
  device_keys (l1 ++ l2)
  = k1 ← device_keys l1; k2 ← device_keys l2; Return (k1 ++ k2).
Proof.
  induction l1 as [|d l1 IH]; simpl.
  - by destruct (device_keys l2).
  - destruct (device_key d); [done|]. simpl. rewrite IH.
    destruct (device_keys l1); [done|]. simpl.
    by destruct (device_keys l2).
Qed.

Lemma scan_all_app l1 l2 acc :
  scan_all net clock (l1 ++ l2) acc
  = acc' ← scan_all net clock l1 acc; scan_all net clock l2 acc'.
Proof.
  unfold scan_all. rewrite omap_app, device_keys_app.
  destruct (device_keys (omap (probe net clock) l1)) as [e|k1]; [done|]. simpl.
  destruct (device_keys (omap (probe net clock) l2)) as [e|k2]; [done|]. simpl.
  unfold insert_all. rewrite foldl_app, tally_tally. f_equal. f_equal.
  rewrite filter_app, !length_app. f_equal; lia.
Qed.

Lemma scan_all_nil acc : scan_all net clock [] acc = inr acc.
Proof. unfold scan_all. simpl. rewrite tally_0. by destruct acc. Qed.

Lemma scan_batches_closed bs ips starts acc :
  scan_batches net clock bs ips starts acc
  = scan_all net clock (concat ((λ i, py_slice ips i (i + bs)) <$> starts)) acc.
Proof.
  revert acc. induction starts as [|i starts IH]; intros acc.
  - simpl. by rewrite scan_all_nil.
  - cbn [scan_batches fmap list_fmap concat]. rewrite scan_all_app.
    rewrite scan_batch_closed, store_devices_closed.
    set (batch := py_slice ips i (i + bs)).
    assert (Hb : scan_all net clock batch acc
              = kds ← device_keys (omap (probe net clock) batch);
                Return (insert_all kds acc.1,
                        tally (Z.of_nat (length batch))
                          (Z.of_nat (length (omap (probe net clock) batch)))
                          (Z.of_nat (length (filter
                             (λ ip, counts_error net clock ip = true) batch)))
                          acc.2)) by done.
    rewrite Hb.
    destruct (device_keys (omap (probe net clock) batch)) as [e|kds]; [done|].
    simpl. rewrite IH, tally_tally. do 2 f_equal. f_equal; lia.
Qed.

(** The batches of a scan with a positive limit are the addresses of
    the range in order, and the statistics only add up: the scan is one
    pass over all the addresses. *)
Lemma scan_network_closed network concurrent_limit :
  0 < concurrent_limit →
  scan_network net clock network concurrent_limit
  = scan_all net clock (all_ips network)
      (∅, set_total (Z.of_nat (length (all_ips network))) init_stats).
Proof.
  intros Hcl. unfold scan_network.
  destruct (batches_cover (all_ips network) concurrent_limit Hcl)
    as (starts & -> & Hcover).
  simpl. by rewrite scan_batches_closed, Hcover.
Qed.

Lemma device_keys_inv devices kds :
  device_keys devices = inr kds →
  kds.*2 = devices ∧ Forall (λ kd, device_key kd.2 = inr kd.1) kds.
Proof.
  revert kds. induction devices as [|d ds IH]; intros kds; simpl.
  - by intros [= <-].
  - destruct (device_key d) as [e|k] eqn:Hk; [done|]. simpl.
    destruct (device_keys ds) as [e|kds']; [done|]. simpl.
    intros [= <-]. destruct (IH kds' eq_refl) as [Hds Hall].
    split; [by rewrite fmap_cons, Hds|]. by constructor.
Qed.

Lemma device_keys_returns devices :
  Forall (λ d, ∃ k, device_key d = inr k) devices →
  ∃ kds, device_keys devices = inr kds.
Proof.
  induction 1 as [|d ds [k Hk] _ [kds IH]]; simpl; [by eexists|].
  rewrite Hk. simpl. rewrite IH. by eexists.
Qed.

Lemma device_keys_raises devices e :
  device_keys devices = inl e → Exists (λ d, device_key d = inl e) devices.
Proof.
  induction devices as [|d ds IH]; simpl; [done|].
  destruct (device_key d) as [e'|k] eqn:Hk; simpl.
  - intros [= <-]. by left.
  - destruct (device_keys ds) as [e'|kds]; [|done]. simpl.
    intros [= <-]. right. by apply IH.
Qed.

Lemma insert_all_lookup kds m k :
  insert_all kds m !! k =
    match last (filter (λ kd, kd.1 = k) kds) with
    | Some kd => Some kd.2
    | None => m !! k
    end.
Proof.
  unfold insert_all. revert m.
  induction kds as [|[k' d] kds IH]; intros m; [done|].
  cbn [foldl]. rewrite IH. cbn [fst snd].
  destruct (decide (k' = k)) as [->|Hne].
  - rewrite filter_cons_True by done.
    destruct (filter _ kds) as [|kd l] eqn:Hf; simpl.
    + by rewrite lookup_insert_eq.
    + change (last (kd :: l)) with (last (kd :: l)).
      by destruct (last (kd :: l)) eqn:Hl; [|apply last_None in Hl].
  - rewrite filter_cons_False by done. simpl.
    by rewrite lookup_insert_ne.
Qed.

Lemma size_insert_all kds m :
  (size (insert_all kds m) ≤ size m + length kds)%nat.
Proof.
  unfold insert_all. revert m.
  induction kds as [|[k d] kds IH]; intros m; simpl; [lia|].
  etrans; [apply IH|]. simpl.
  destruct (m !! k) eqn:Hk.
  - rewrite map_size_insert_Some by eauto. lia.
  - rewrite map_size_insert_None by done. lia.
Qed.

Lemma found_or_error ips :
  (length (omap (probe net clock) ips)
   + length (filter (λ ip, counts_error net clock ip = true) ips)
   ≤ length ips)%nat.
Proof.
  induction ips as [|ip ips IH]; [done|].
  cbn [omap list_omap].
  destruct (counts_error net clock ip) eqn:Hc.
  - rewrite filter_cons_True by done.
    assert (probe net clock ip = None) as ->.
    { revert Hc. unfold counts_error, probe, IDManager.scan_single_device.
      by destruct (scan_attempt _ _ _). }
    simpl. lia.
  - rewrite filter_cons_False by (by rewrite Hc).
    destruct (probe net clock ip); simpl; lia.
Qed.

(** X5: the result of [scan_network], the map as well as the
    statistics or the exception, is the same for every positive
    [concurrent_limit]. *)
Theorem scan_network_any_limit network limit1 limit2 :
  0 < limit1 → 0 < limit2 →
  scan_network net clock network limit1 = scan_network net clock network limit2.
Proof. intros H1 H2. by rewrite !scan_network_closed. Qed.

(** X6: after a scan that returns, [total_ips] and [scanned] are the
    number of host addresses of the range, [found] is the number of
    addresses at which a device answered, [errors] the number of probes
    that ended in an unexpected exception; the map has at most [found]
    entries, and no probe is counted both as found and as an error. *)
Theorem scan_network_statistics network concurrent_limit discovered st :
  0 < concurrent_limit →
  scan_network net clock network concurrent_limit = inr (discovered, st) →
  total_ips st = Z.of_nat (length (ipaddress.hosts network)) ∧
  scanned st = total_ips st ∧
  found st = Z.of_nat (length (omap (probe net clock) (all_ips network))) ∧
  errors st = Z.of_nat (length (filter (λ ip, counts_error net clock ip = true)
                                  (all_ips network))) ∧
  Z.of_nat (size discovered) ≤ found st ∧
  found st + errors st ≤ scanned st.
Proof.
  intros Hcl. rewrite scan_network_closed by done. unfold scan_all.
  destruct (device_keys _) as [e|kds] eqn:Hk; [done|]. simpl.
  intros [= <- <-]. simpl.
  apply device_keys_inv in Hk as [Hk _].
  assert (Hlen : length kds = length (omap (probe net clock) (all_ips network)))
    by (by rewrite <- Hk, length_fmap).
  split; [unfold all_ips; by rewrite length_fmap|].
  do 3 (split; [lia|]). split.
  - pose proof (size_insert_all kds ∅) as Hs. rewrite map_size_empty in Hs. lia.
  - pose proof (found_or_error (all_ips network)). lia.
Qed.

Lemma probe_Some ip d :
  probe net clock ip = Some d ↔
  ∃ doc, net ip = Response 200 (inr (JObj doc)) ∧
         device_info ip (clock ip) (JObj doc) = inr d.
Proof.
  unfold probe, IDManager.scan_single_device, scan_attempt.
  destruct (net ip) as [e | status [e | data]].
  - split; [done | by intros (? & [=] & _)].
  - case_decide; (split; [done | by intros (? & [=] & _)]).
  - case_decide as Hs; [subst status|split; [done|by intros (? & [= ? _] & _)]].
    simpl. destruct data; simpl;
      try (split; [done | by intros (? & [=] & _)]).
    split.
    + intros [= <-]. eauto.
    + by intros (doc & [= <-] & [= <-]).
Qed.

Lemma probe_fields_online ip d :
  probe net clock ip = Some d →
  d !! "online" = Some (JBool true) ∧
  d !! "ip_address" = Some (JStr ip) ∧
  ∃ mac, d !! "mac_address" = Some mac.
Proof.
  intros (doc & _ & Hd)%probe_Some.
  destruct (device_info_dict ip (clock ip) doc) as (info & Hi & ? & ? & ? & _).
  rewrite Hd in Hi. injection Hi as <-. eauto.
Qed.

Lemma device_key_Some (d : record) k :
  device_key d = inr k ↔
  ∃ mac, d !! "mac_address" = Some mac ∧ key_of mac = inr k.
Proof.
  unfold device_key. simpl. destruct (d !! "mac_address") as [mac|]; simpl.
  - split; [eauto|]. by intros (? & [= <-] & ?).
  - split; [done|]. by intros (? & [=] & _).
Qed.

(** X7: every record of the map [scan_network] returns is stored under
    the key of its own [mac_address], has [online = True], and was built
    by the probe of a host address of the range, which is its
    [ip_address]. *)
Theorem scan_network_records network concurrent_limit discovered st :
  0 < concurrent_limit →
  scan_network net clock network concurrent_limit = inr (discovered, st) →
  keyed_by_mac discovered ∧
  ∀ k d, discovered !! k = Some d →
    d !! "online" = Some (JBool true) ∧
    ∃ ip, ip ∈ all_ips network ∧ probe net clock ip = Some d ∧
          d !! "ip_address" = Some (JStr ip).
Proof.
  intros Hcl. rewrite scan_network_closed by done. unfold scan_all.
  destruct (device_keys _) as [e|kds] eqn:Hk; [done|]. simpl.
  intros [= <- _].
  apply device_keys_inv in Hk as [Hk Hall].
  assert (Hin : ∀ k d, insert_all kds ∅ !! k = Some d →
            device_key d = inr k ∧ d ∈ omap (probe net clock) (all_ips network)).
  { intros k d. rewrite insert_all_lookup, lookup_empty.
    destruct (last _) as [[k' d']|] eqn:Hl; [|done]. intros [= <-].
    apply last_Some_elem_of, list_elem_of_filter in Hl as [Hk' Hl].
    simpl in Hk'. subst k'. split.
    - eapply Forall_forall in Hall; [|done]. done.
    - rewrite <- Hk. apply list_elem_of_fmap. by exists (k, d'). }
  split.
  - intros k d Hd. apply device_key_Some. by apply Hin.
  - intros k d Hd. destruct (Hin k d Hd) as [_ (ip & Hip & Hp)%list_elem_of_omap].
    destruct (probe_fields_online ip d Hp) as (? & ? & _). eauto 6.
Qed.

Lemma filter_other_keys (kds : list (pykey * record)) k :
  Forall (λ kd, device_key kd.2 = inr kd.1) kds →
  Forall (λ d', device_key d' ≠ inr k) kds.*2 →
  filter (λ kd : pykey * record, kd.1 = k) kds = [].
Proof.
  induction 1 as [|[k' d'] kds Hkd _ IH]; [done|].
  rewrite fmap_cons. intros [Hne Hrest]%Forall_cons. simpl in *.
  rewrite filter_cons_False; [by apply IH|]. simpl. congruence.
Qed.

(** X8: when several addresses answer with the same MAC, the map holds
    the record of the last of them in address order. *)
Theorem scan_network_last_wins network concurrent_limit discovered st l1 d l2 k :
  0 < concurrent_limit →
  scan_network net clock network concurrent_limit = inr (discovered, st) →
  omap (probe net clock) (all_ips network) = l1 ++ d :: l2 →
  device_key d = inr k →
  Forall (λ d', device_key d' ≠ inr k) l2 →
  discovered !! k = Some d.
Proof.
  intros Hcl. rewrite scan_network_closed by done. unfold scan_all.
  destruct (device_keys _) as [e|kds] eqn:Hk; [done|]. simpl.
  intros [= <- _] Hsplit Hd Hl2.
  rewrite Hsplit, device_keys_app in Hk.
  destruct (device_keys l1) as [e|k1]; [done|]. simpl in Hk.
  rewrite Hd in Hk. simpl in Hk.
  destruct (device_keys l2) as [e|k2] eqn:Hk2; [done|]. simpl in Hk.
  injection Hk as <-.
  apply device_keys_inv in Hk2 as [Hk2 Hall2].
  rewrite insert_all_lookup, filter_app, filter_cons_True by done.
  subst l2. rewrite (filter_other_keys k2 k) by done.
  by rewrite last_snoc.
Qed.

(** X9: with [concurrent_limit = 0] the scan raises [ValueError]; with
    a positive limit it raises only a [TypeError], and only when a device
    that answered reports a list or an object as its [mac_address]; it
    returns when every device that answered has a hashable one. *)
Theorem scan_network_aborts network concurrent_limit :
  scan_network net clock network 0
    = inl (ValueError "range() arg 3 must not be zero") ∧
  (0 < concurrent_limit →
   (∀ e, scan_network net clock network concurrent_limit = inl e →
      ∃ ip d mac msg,
        ip ∈ all_ips network ∧ probe net clock ip = Some d ∧
        d !! "mac_address" = Some mac ∧
        key_of mac = inl e ∧ e = TypeError msg) ∧
   (Forall (λ d : record, ∃ k, device_key d = inr k)
      (omap (probe net clock) (all_ips network)) →
    ∃ discovered st,
      scan_network net clock network concurrent_limit = inr (discovered, st))).
Proof.
  split; [done|]. intros Hcl. rewrite scan_network_closed by done.
  unfold scan_all. split.
  - intros e He.
    destruct (device_keys _) as [e'|kds] eqn:Hk; [|done]. injection He as ->.
    apply device_keys_raises, Exists_exists in Hk as (d & Hd & Hkey).
    apply list_elem_of_omap in Hd as (ip & Hip & Hp).
    destruct (probe_fields_online ip d Hp) as (_ & _ & mac & Hmac).
    unfold device_key in Hkey. simpl in Hkey. rewrite Hmac in Hkey. simpl in Hkey.
    exists ip, d, mac. destruct mac; try done; simpl in Hkey;
      injection Hkey as <-; eauto 10.
  - intros [kds ->]%device_keys_returns. simpl. eauto.
Qed.
End scan_closed.

(** ** A network in which two addresses report the same MAC *)
Section twin.
Import DeviceScanner.

Lemma twin_probe ip :
  ∃ d, probe twin_net lab_clock ip = Some d ∧
       device_key d = inr (KStr mac_A) ∧
       d !! "ip_address" = Some (JStr ip).
Proof.
  set (doc := <["mac_address" := JStr mac_A]> ({["id" := JStr ip]} : record)).
  destruct (device_info_dict ip (lab_clock ip) doc)
    as (info & Hinfo & _ & Hip & Hmac & _).
  exists info. split; [|split; [|done]].
  - apply probe_Some. by exists doc.
  - apply device_key_Some. exists (JStr mac_A). split; [|done].
    rewrite Hmac. unfold dict_get, doc. by rewrite lookup_insert_eq.
Qed.

Lemma twin_ips : all_ips lab_network = ["192.168.1.1"; "192.168.1.2"].
Proof. reflexivity. Qed.

Lemma twin_found :
  ∃ d1 d2,
    omap (probe twin_net lab_clock) (all_ips lab_network) = [d1; d2] ∧
    device_key d1 = inr (KStr mac_A) ∧
    device_key d2 = inr (KStr mac_A) ∧
    d2 !! "ip_address" = Some (JStr "192.168.1.2").
Proof.
  destruct (twin_probe "192.168.1.1") as (d1 & H1 & K1 & _).
  destruct (twin_probe "192.168.1.2") as (d2 & H2 & K2 & I2).
  exists d1, d2. rewrite twin_ips. cbn [omap list_omap].
  by rewrite H1, H2.
Qed.

Lemma twin_scan_returns :
  ∃ discovered st,
    scan_network twin_net lab_clock lab_network 50 = inr (discovered, st).
Proof.
  destruct twin_found as (d1 & d2 & Hf & K1 & K2 & _).
  rewrite scan_network_closed by lia. unfold scan_all.
  rewrite Hf. cbn [device_keys]. rewrite K1, K2. simpl. eauto.
Qed.
End twin.

Lemma merge_online_is_discovered_witness :
  ("update" = "add" ∨ "update" = "update") ∧
  (∀ mac d, ({[mac_A := device_A']} : gmap string record) !! mac = Some d →
            d !! "online" = Some (JBool true)) ∧
  ∃ merged r',
    DeviceScanner.merge_device_maps "update"
      ({[mac_B := device_B]} : gmap string record)
      {[mac_A := device_A']} = inr merged ∧
    merged !! mac_B = Some r' ∧
    (r' !! "online" = Some (JBool true) ↔
     is_Some (({[mac_A := device_A']} : gmap string record) !! mac_B)).
Proof.
  assert (Hon : ∀ mac d,
            ({[mac_A := device_A']} : gmap string record) !! mac = Some d →
            d !! "online" = Some (JBool true)).
  { intros mac d [_ <-]%lookup_singleton_Some. reflexivity. }
  split; [by right|]. split; [exact Hon|].
  eexists _, (offline device_B). split; [reflexivity|].
  assert (Hb : map_fold DeviceScanner.update_step
                 (DeviceScanner.mark_offline {[mac_B := device_B]})
                 ({[mac_A := device_A']} : gmap string record) !! mac_B
               = Some (offline device_B)).
  { rewrite update_loop_lookup, lookup_mark_offline.
    rewrite lookup_singleton_ne by done. by rewrite lookup_singleton_eq. }
  split; [exact Hb|].
  exact (merge_online_is_discovered "update" _ _ _ mac_B _
           (or_intror eq_refl) Hon eq_refl Hb).
Defined.

Lemma merge_keeps_keyed_by_mac_witness :
  keyed_by_mac {[KStr mac_A := device_A]} ∧
  keyed_by_mac {[KStr mac_B := device_B]} ∧
  ∃ merged,
    DeviceScanner.merge_device_maps "add"
      {[KStr mac_A := device_A]} {[KStr mac_B := device_B]} = inr merged ∧
    keyed_by_mac merged.
Proof.
  assert (Ha : keyed_by_mac {[KStr mac_A := device_A]}).
  { intros k d [<- <-]%lookup_singleton_Some. by exists (JStr mac_A). }
  assert (Hb : keyed_by_mac {[KStr mac_B := device_B]}).
  { intros k d [<- <-]%lookup_singleton_Some. by exists (JStr mac_B). }
  split; [exact Ha|]. split; [exact Hb|].
  eexists. split; [reflexivity|].
  exact (merge_keeps_keyed_by_mac "add" _ _ _ Ha Hb eq_refl).
Defined.

Lemma scan_network_any_limit_witness :
  0 < 1 ∧ 0 < 50 ∧
  DeviceScanner.scan_network twin_net lab_clock lab_network 1
  = DeviceScanner.scan_network twin_net lab_clock lab_network 50.
Proof.
  split; [lia|]. split; [lia|].
  apply (scan_network_any_limit twin_net lab_clock lab_network 1 50); lia.
Defined.

Lemma scan_network_statistics_witness :
  0 < 50 ∧
  ∃ discovered st,
    DeviceScanner.scan_network twin_net lab_clock lab_network 50
      = inr (discovered, st) ∧
    DeviceScanner.scanned st = DeviceScanner.total_ips st ∧
    Z.of_nat (size discovered) ≤ DeviceScanner.found st.
Proof.
  split; [lia|].
  destruct twin_scan_returns as (discovered & st & Hs).
  exists discovered, st. split; [exact Hs|].
  destruct (scan_network_statistics twin_net lab_clock lab_network 50
              discovered st ltac:(lia) Hs) as (_ & Hsc & _ & _ & Hsz & _).
  split; [exact Hsc | exact Hsz].
Defined.

Lemma scan_network_records_witness :
  0 < 50 ∧
  ∃ discovered st,
    DeviceScanner.scan_network twin_net lab_clock lab_network 50
      = inr (discovered, st) ∧
    keyed_by_mac discovered.
Proof.
  split; [lia|].
  destruct twin_scan_returns as (discovered & st & Hs).
  exists discovered, st. split; [exact Hs|].
  exact (proj1 (scan_network_records twin_net lab_clock lab_network 50
                  discovered st ltac:(lia) Hs)).
Defined.

Lemma scan_network_last_wins_witness :
  0 < 50 ∧
  ∃ discovered st d1 d2,
    DeviceScanner.scan_network twin_net lab_clock lab_network 50
      = inr (discovered, st) ∧
    omap (probe twin_net lab_clock) (DeviceScanner.all_ips lab_network)
      = [d1] ++ d2 :: [] ∧
    device_key d2 = inr (KStr mac_A) ∧
    Forall (λ d', device_key d' ≠ inr (KStr mac_A)) [] ∧
    d2 !! "ip_address" = Some (JStr "192.168.1.2") ∧
    discovered !! KStr mac_A = Some d2.
Proof.
  split; [lia|].
  destruct twin_scan_returns as (discovered & st & Hs).
  destruct twin_found as (d1 & d2 & Hf & _ & Hk & Hip).
  exists discovered, st, d1, d2. split; [exact Hs|]. split; [exact Hf|].
  split; [exact Hk|]. split; [constructor|]. split; [exact Hip|].
  exact (scan_network_last_wins twin_net lab_clock lab_network 50 discovered st
           [d1] d2 [] (KStr mac_A) ltac:(lia) Hs Hf Hk (List.Forall_nil _)).
Defined.

(** ** The device map of the ID manager *)

Section tables.
Implicit Types (ds : list json) (k : pykey).





End tables.

Section set_device_id.
Variable upper : string → string.
Variable post_id : json → string → http_outcome.

End set_device_id.

(** ** The plan of auto-assign *)

Section assignments.
Variable prefix : string.
Implicit Types (ds : list record) (n : Z).

Lemma assignments_app ds1 : ∀ ds2 n,
  IDRegistry.assignments prefix (ds1 ++ ds2) n =
  IDRegistry.assignments prefix ds1 n
  ++ IDRegistry.assignments prefix ds2
       (n + Z.of_nat (length (IDRegistry.assignments prefix ds1 n))).
Proof.
  induction ds1 as [|d ds1 IH]; intros ds2 n;
    cbn [IDRegistry.assignments app length].
  - by rewrite Z.add_0_r.
  - destruct (py_truthy _); [|apply IH].
    destruct (py_eq_str _ _); [apply IH|].
    cbn [app length]. rewrite IH. do 3 f_equal. lia.
Qed.

(** X13: the planned new IDs are numbered without a gap, the i-th
    assignment (from 0) getting [start_num + i]; there are at most as
    many assignments as online devices; and no assignment gives a
    device the ID it already has. *)
Theorem assignments_numbered ds n :
  IDRegistry.new_id <$> IDRegistry.assignments prefix ds n =
    (λ i : nat, IDRegistry.new_id_for prefix (n + Z.of_nat i))
      <$> seq 0 (length (IDRegistry.assignments prefix ds n))
  ∧ (length (IDRegistry.assignments prefix ds n)
     ≤ length (filter (λ d, online d = true) ds))%nat
  ∧ Forall (λ a, IDRegistry.old_id a ≠ JStr (IDRegistry.new_id a))
           (IDRegistry.assignments prefix ds n).
Proof.
  revert n. induction ds as [|d ds IH]; intros n; cbn [IDRegistry.assignments].
  - by repeat split.
  - destruct (IH n) as (IH1 & IH2 & IH3).
    destruct (IH (n + 1)) as (IH1' & IH2' & IH3').
    destruct (py_truthy (dict_get d "online" JNull)) eqn:Ho.
    + rewrite filter_cons_True by done.
      destruct (py_eq_str _ _) eqn:He.
      * split; [done|]. split; [cbn; lia|done].
      * split; [|split].
        -- cbn [fmap list_fmap length seq IDRegistry.new_id].
           rewrite Z.add_0_r.
           f_equal. fold (fmap (M:=list) IDRegistry.new_id). rewrite IH1'.
           rewrite <- fmap_S_seq, <- list_fmap_compose.
           apply list_fmap_ext. intros _ i _. cbn. f_equal. lia.
        -- cbn [length]. lia.
        -- constructor; [|done]. cbn. intros E. rewrite E in He. cbn in He.
           by case_bool_decide.
    + rewrite filter_cons_False by (unfold online; rewrite Ho; done).
      done.
Qed.

(** X14: an online device that is skipped because it already holds the
    ID of the current number does not advance the number: the next
    device that gets an assignment is given the very ID the skipped
    device holds, while holding a different one before. *)
Theorem assignments_skipped_id_reused ds1 d ds2 n a rest :
  online d = true →
  dict_get d "id" (JStr "UNKNOWN")
    = JStr (IDRegistry.new_id_for prefix
              (n + Z.of_nat (length (IDRegistry.assignments prefix ds1 n)))) →
  IDRegistry.assignments prefix ds2
    (n + Z.of_nat (length (IDRegistry.assignments prefix ds1 n))) = a :: rest →
  IDRegistry.assignments prefix (ds1 ++ d :: ds2) n
    = IDRegistry.assignments prefix ds1 n ++ a :: rest
  ∧ JStr (IDRegistry.new_id a) = dict_get d "id" (JStr "UNKNOWN")
  ∧ IDRegistry.old_id a ≠ dict_get d "id" (JStr "UNKNOWN").
Proof.
  intros Ho Hid Hp. rewrite assignments_app. cbn [IDRegistry.assignments].
  unfold online in Ho.
  rewrite Ho, Hid. cbn [py_eq_str]. rewrite bool_decide_eq_true_2 by done.
  rewrite Hp. split; [done|].
  destruct ds2 as [|d2 ds2]; [done|].
  pose proof (assignments_numbered (d2 :: ds2)
    (n + Z.of_nat (length (IDRegistry.assignments prefix ds1 n))))
    as (H1 & _ & H3).
  rewrite Hp in H1, H3. cbn in H1. injection H1 as H1 _.
  rewrite Z.add_0_r in H1. apply Forall_cons in H3 as [H3 _].
  split; [by rewrite H1|]. by rewrite <- H1.
Qed.
End assignments.

(** ** The devices of a batch command *)

Section select.
Variable test : json → result bool.

Lemma select_sound ds : ∀ ds',
  BatchDevices.select test ds = inr ds' → Forall (λ d, test d = inr true) ds'.
Proof.
  induction ds as [|d ds IH]; intros ds' H; cbn [BatchDevices.select] in H.
  - injection H as <-. constructor.
  - destruct (test d) as [e|b] eqn:E; unfold mbind, result_bind in H;
      [discriminate|].
    destruct (BatchDevices.select test ds) as [e|rest]; [discriminate|].
    injection H as <-. destruct b; [constructor|]; auto.
Qed.

Lemma select_all ds :
  Forall (λ d, test d = inr true) ds → BatchDevices.select test ds = inr ds.
Proof.
  induction 1 as [|d ds Hd _ IH]; cbn [BatchDevices.select]; [done|].
  by rewrite Hd, IH.
Qed.
End select.

(** X15: every device [load_device_map] of the batch controller returns
    is online, so the filters of [main] select the same devices with
    and without [--all-devices]: a command never goes to a device the
    map marks offline. *)
Theorem all_devices_flag_inert map_file devices all_devices filter_id :
  BatchDevices.load_device_map map_file = Some devices →
  Forall (λ d, BatchDevices.is_online d = inr true) devices
  ∧ BatchDevices.apply_filters all_devices filter_id devices
    = BatchDevices.apply_filters true filter_id devices.
Proof.
  intros H.
  assert (Forall (λ d, BatchDevices.is_online d = inr true) devices) as Hon.
  { destruct map_file as [|read]; [done|].
    unfold BatchDevices.load_device_map in H.
    destruct (BatchDevices.load_body read) as [e|[ds|]] eqn:E; try done.
    injection H as ->. unfold BatchDevices.load_body in E.
    destruct read as [e|data]; [done|]. unfold mbind, result_bind in E.
    destruct (match data with JObj m => _ | _ => _ end) as [e|[v|]];
      [done| |done].
    destruct (DeviceScanner.py_iter v) as [e|ds]; [done|].
    destruct (BatchDevices.select BatchDevices.is_online ds) as [e|ds'] eqn:E';
      [done|].
    injection E as <-. by eapply select_sound. }
  split; [done|]. unfold BatchDevices.apply_filters.
  destruct all_devices; [done|]. by rewrite (select_all _ _ Hon).
Qed.




(** A device without [mac_address] holds the ID that is to be given to
    another device: the warning joins [None] with the MACs, and
    [set_device_id] raises before anything is sent. *)
Example set_device_id_unnamed_holder :
  match IDRegistry.load_device_map orphan_file with
  | Some t =>
      IDRegistry.set_device_id (λ s : string, s)
        (λ (_ : json) (_ : string), Response 200 (inr JNull)) t "M1" "LF-9"
      = ([], inl (TypeError "sequence item: expected str instance"))
  | None => False
  end.
Proof. by vm_compute. Qed.

Lemma assignments_skipped_id_reused_witness :
  IDRegistry.assignments "LOUD"
    ([] ++ unit_dev "LOUD-001" :: [unit_dev "LOUD-007"]) 1
    = IDRegistry.assignments "LOUD" [] 1
      ++ [{| IDRegistry.mac := JNull;
             IDRegistry.old_id := JStr "LOUD-007";
             IDRegistry.new_id := "LOUD-001" |}]
  ∧ JStr "LOUD-001" = dict_get (unit_dev "LOUD-001") "id" (JStr "UNKNOWN")
  ∧ JStr "LOUD-007" ≠ dict_get (unit_dev "LOUD-001") "id" (JStr "UNKNOWN").
Proof.
  apply (assignments_skipped_id_reused "LOUD" [] (unit_dev "LOUD-001")
           [unit_dev "LOUD-007"] 1
           {| IDRegistry.mac := JNull;
              IDRegistry.old_id := JStr "LOUD-007";
              IDRegistry.new_id := "LOUD-001" |} []);
    vm_compute; reflexivity.
Defined.

Lemma all_devices_flag_inert_witness :
  Forall (λ d, BatchDevices.is_online d = inr true) [reg_dev "LF-1" true]
  ∧ BatchDevices.apply_filters false None [reg_dev "LF-1" true]
    = BatchDevices.apply_filters true None [reg_dev "LF-1" true].
Proof.
  apply (all_devices_flag_inert reg_file [reg_dev "LF-1" true] false None).
  vm_compute; reflexivity.
Defined.

(** ** A second run over the saved map *)

Section rerun.
Import DeviceScanner.
Implicit Types (existing new merged : gmap pykey record).

Lemma by_mac_inserts (l : list record) : ∀ acc,
  Forall (λ d, ∃ k, device_key d = inr k) l →
  by_mac (JObj <$> l) acc
  = inr (foldl (λ m d, <[own_key d := JObj d]> m) acc l).
Proof.
  induction l as [|d l IH]; intros acc Hl;
    cbn [fmap list_fmap by_mac foldl]; [done|].
  apply Forall_cons in Hl as [[k Hk] Hl].
  unfold own_key. rewrite Hk. unfold device_key in Hk.
  destruct (py_getitem (JObj d) "mac_address") as [e|mac];
    unfold mbind, result_bind in *; [discriminate|].
  rewrite Hk. by apply IH.
Qed.

Lemma foldl_inserts_list_to_map (l : list record) :
  foldl (λ m d, <[own_key d := JObj d]> m) (∅ : gmap pykey json) l
  = list_to_map (reverse ((λ d, (own_key d, JObj d)) <$> l)).
Proof.
  induction l as [|x l IH] using rev_ind; [done|].
  rewrite foldl_snoc, fmap_app, reverse_app, IH.
  cbn [fmap list_fmap]. by rewrite reverse_singleton.
Qed.

Lemma keyed_own_key (m : gmap pykey record) k d :
  keyed_by_mac m → m !! k = Some d → device_key d = inr k.
Proof.
  intros Hm Hkd. destruct (Hm _ _ Hkd) as (mac & Hmac & Hkey).
  unfold device_key, py_getitem. rewrite Hmac.
  unfold mbind, result_bind. by rewrite Hkey.
Qed.

Lemma by_mac_of_values (m : gmap pykey record) (l : list record) :
  keyed_by_mac m →
  l ≡ₚ (map_to_list m).*2 →
  by_mac (JObj <$> l) ∅ = inr (JObj <$> m).
Proof.
  intros Hm Hl.
  rewrite by_mac_inserts, foldl_inserts_list_to_map.
  - f_equal. rewrite <- (list_to_map_to_list (JObj <$> m)).
    symmetry. apply list_to_map_proper; [apply NoDup_fst_map_to_list|].
    rewrite map_to_list_fmap, reverse_Permutation, Hl.
    rewrite <- list_fmap_compose.
    assert ((λ d, (own_key d, JObj d)) ∘ snd <$> map_to_list m
            = prod_map id JObj <$> map_to_list m) as ->; [|done].
    apply list_fmap_ext.
    intros i [k d] Hkd%list_elem_of_lookup_2%elem_of_map_to_list.
    unfold prod_map, compose, own_key. cbn [fst snd id].
    by rewrite (keyed_own_key m k d).
  - rewrite Hl. apply Forall_forall.
    intros d [[k d'] [-> Hkd%elem_of_map_to_list]]%list_elem_of_fmap.
    exists k. by eapply keyed_own_key.
Qed.

Lemma as_device_map_records (m : gmap pykey record) :
  as_device_map (JObj <$> m) = inr m.
Proof.
  unfold as_device_map. rewrite decide_True.
  - f_equal. apply map_eq. intros k.
    rewrite lookup_omap, lookup_fmap. by destruct (m !! k).
  - intros k v. rewrite lookup_fmap. destruct (m !! k); intros [= <-]. eauto.
Qed.

Lemma load_saved_map now mode network (m : gmap pykey record) device_list :
  keyed_by_mac m →
  device_list ≡ₚ (map_to_list m).*2 →
  load_existing_map (File (inr (DeviceMapFile.output now mode network device_list)))
  = PyDict (JObj <$> m).
Proof.
  intros Hm Hl. unfold load_existing_map, load_body, DeviceMapFile.output.
  cbn [mbind result_bind].
  rewrite !lookup_insert_ne, lookup_singleton_eq by done.
  cbn [py_iter mbind result_bind].
  by rewrite (by_mac_of_values m device_list Hm Hl).
Qed.

Lemma merge_keyed mode existing new merged :
  keyed_by_mac existing →
  keyed_by_mac new →
  merge_device_maps mode existing new = inr merged →
  keyed_by_mac merged.
Proof.
  intros He Hn Hm k r' Hr. rewrite (merge_lookup _ _ _ _ k Hm) in Hr.
  assert (Hoff : ∀ r : record,
            (∃ mac, r !! "mac_address" = Some mac ∧ key_of mac = inr k) →
            ∃ mac, offline r !! "mac_address" = Some mac ∧ key_of mac = inr k).
  { intros r (mac & ? & ?). exists mac. by rewrite lookup_offline, decide_False. }
  assert (Hup : ∀ d r : record,
            (∃ mac, d !! "mac_address" = Some mac ∧ key_of mac = inr k) →
            ∃ mac, (d ∪ r) !! "mac_address" = Some mac ∧ key_of mac = inr k).
  { intros d r (mac & Hd & ?). exists mac. by rewrite lookup_update, Hd. }
  repeat case_decide.
  - by eapply Hn.
  - destruct (new !! k) as [d|] eqn:Hd, (existing !! k) as [r|] eqn:Hx;
      simpl in Hr; try discriminate; injection Hr as <-; eauto.
  - destruct (new !! k) as [d|] eqn:Hd, (existing !! k) as [r|] eqn:Hx;
      simpl in Hr; try discriminate; injection Hr as <-; eauto.
Qed.

(** X2: a second run that discovers the same records gives the same
    map.  The first run merged [new] into [existing] and saved
    [merged]: the map file holds the document of [save_device_map],
    whose [devices] list has the records of [merged] in the order of
    the sort.  A second run in the same mode reads that file, which
    builds new dictionaries, merges the same discoveries, and ends with
    [merged] again; this holds under each policy for records stored
    under the key of their own [mac_address] and discoveries with an
    [online] field, as a scan returns them. *)
Theorem rerun_same_scan mode existing new merged now network device_list :
  keyed_by_mac existing →
  keyed_by_mac new →
  (∀ k d, new !! k = Some d → is_Some (d !! "online")) →
  merge_device_maps mode existing new = inr merged →
  device_list ≡ₚ (map_to_list merged).*2 →
  run_final_map mode
    (File (inr (DeviceMapFile.output now mode network device_list))) new
  = inr merged.
Proof.
  intros He Hn Hon Hm Hl. unfold run_final_map.
  pose proof (merge_idempotent mode existing new merged Hon Hm) as Hagain.
  case_decide as Hmode.
  - rewrite (load_saved_map now mode network merged device_list); 
      [|exact (merge_keyed mode existing new merged He Hn Hm)|done].
    rewrite as_device_map_records. exact Hagain.
  - revert Hm. unfold merge_device_maps.
    case_decide; [done|]. case_decide; [tauto|]. case_decide; [tauto|done].
Qed.
End rerun.

Lemma rerun_same_scan_witness :
  keyed_by_mac {[KStr mac_B := device_B]} ∧
  keyed_by_mac {[KStr mac_A := device_A']} ∧
  (∀ k d, ({[KStr mac_A := device_A']} : gmap pykey record) !! k = Some d →
          is_Some (d !! "online")) ∧
  ∃ merged,
    DeviceScanner.merge_device_maps "add"
      {[KStr mac_B := device_B]} {[KStr mac_A := device_A']} = inr merged ∧
    DeviceScanner.run_final_map "add"
      (DeviceScanner.File
         (inr (DeviceMapFile.output "2025-01-01T00:00:00" "add" "192.168.1.0/24"
                 (map_to_list merged).*2)))
      {[KStr mac_A := device_A']}
    = inr merged.
Proof.
  assert (Hb : keyed_by_mac {[KStr mac_B := device_B]}).
  { intros k d [<- <-]%lookup_singleton_Some. by exists (JStr mac_B). }
  assert (Ha : keyed_by_mac {[KStr mac_A := device_A']}).
  { intros k d [<- <-]%lookup_singleton_Some. by exists (JStr mac_A). }
  assert (Hon : ∀ k d,
            ({[KStr mac_A := device_A']} : gmap pykey record) !! k = Some d →
            is_Some (d !! "online")).
  { intros k d [_ <-]%lookup_singleton_Some. by eexists. }
  split; [exact Hb|]. split; [exact Ha|]. split; [exact Hon|].
  eexists. split; [reflexivity|].
  exact (rerun_same_scan "add" _ _ _ "2025-01-01T00:00:00" "192.168.1.0/24" _
           Hb Ha Hon eq_refl (reflexivity _)).
Defined.
